(** * HeroGraphQLClient (testhero.py): a shallow embedding and its properties

    The program is one Python class: a static credential loader [read], the
    constructor [__init__], and two request methods, [execute_query] and
    [execute_mutation].  Python objects live in a store, the methods are
    computations in a small reader/state/exception monad, and the two
    libraries the class calls (the file system behind [open] and the HTTP
    transport behind [requests.post]) are parameters of the environment. *)

From Stdlib Require Import Strings.String Strings.Ascii.
From stdpp Require Import gmap list fin_maps.

Local Open Scope N_scope.

(** ** Python strings *)

(** A Python [str] is a sequence of Unicode code points, not of bytes:
    [strip] removes white space beyond ASCII. *)
Definition char := N.
Definition str := list char.

(** The code points of a literal. *)
Definition lit (s : string) : str := N_of_ascii <$> list_ascii_of_string s.

Definition newline : char := 10.

(** What [str.strip()] removes: the code points on which CPython's
    [Py_UNICODE_ISSPACE] answers true. *)
Definition is_space (c : char) : bool :=
  ((9 <=? c) && (c <=? 13)) || ((28 <=? c) && (c <=? 32))
  || (c =? 133) || (c =? 160) || (c =? 5760)
  || ((8192 <=? c) && (c <=? 8202))
  || (c =? 8232) || (c =? 8233) || (c =? 8239) || (c =? 8287) || (c =? 12288).

(** [s.lstrip()] *)
Fixpoint lstrip (s : str) : str :=
  match s with
  | [] => []
  | c :: s' => if is_space c then lstrip s' else s
  end.

(** [s.rstrip()] *)
Definition rstrip (s : str) : str := rev (lstrip (rev s)).

(** [s.strip()] *)
Definition strip (s : str) : str := rstrip (lstrip s).

(** [s.startswith(p)] *)
Fixpoint startswith (s p : str) : bool :=
  match p, s with
  | [], _ => true
  | _ :: _, [] => false
  | a :: p', b :: s' => (a =? b) && startswith s' p'
  end.

(** [sep.join(parts)] for the empty separator. *)
Definition join (parts : list str) : str := concat parts.

(** Truth value of a [str]: non-empty. *)
Definition str_truthy (s : str) : bool :=
  match s with [] => false | _ :: _ => true end.

Definition dashes : str := Eval cbv in lit "-----".

(** The comprehension and the join of [read]:
    [[line.strip() for line in lines
        if line.strip() and not line.startswith("-----")]]. *)
Fixpoint key_lines (lines : list str) : list str :=
  match lines with
  | [] => []
  | line :: rest =>
      if str_truthy (strip line) && negb (startswith line dashes)
      then strip line :: key_lines rest
      else key_lines rest
  end.

Definition read_lines (lines : list str) : str := join (key_lines lines).

(** ** Python values, exceptions and objects *)

Definition loc := positive.

(** The exception classes the [except] clauses of the class tell apart.
    [RequestException] stands for [requests.exceptions.RequestException] and
    its subclasses, [OtherException] for every other class derived from
    [Exception], and [KeyboardInterrupt] for the classes derived from
    [BaseException] only. *)
Inductive exn_class :=
| FileNotFoundError
| RequestException
| ValueError
| AttributeError
| TypeError
| OtherException
| KeyboardInterrupt.

(** An exception: its class and [str(e)]. *)
Record exn := { exn_cls : exn_class; exn_str : str }.

(** [isinstance(e, Exception)] *)
Definition is_Exception (e : exn) : bool :=
  match exn_cls e with KeyboardInterrupt => false | _ => true end.

(** [isinstance(e, FileNotFoundError)] *)
Definition is_FileNotFoundError (e : exn) : bool :=
  match exn_cls e with FileNotFoundError => true | _ => false end.

(** [isinstance(e, requests.exceptions.RequestException)] *)
Definition is_RequestException (e : exn) : bool :=
  match exn_cls e with RequestException => true | _ => false end.

#[local] Set Warnings "-register-all".

(** Values.  Decoded JSON trees are unshared and are kept by value
    ([PyList], [PyDict], in insertion order); a [PyRef] is a reference to a
    mutable object of the store.  A float is its binary64 bit pattern. *)
Inductive pyval :=
| PyNone
| PyBool (b : bool)
| PyInt (z : Z)
| PyFloat (bits : N)
| PyStr (s : str)
| PyList (xs : list pyval)
| PyDict (items : list (str * pyval))
| PyExn (e : exn)
| PyRef (l : loc).

(** Objects of the store: a [dict] with [str] keys, or an instance with its
    attribute dictionary. *)
Inductive object :=
| ODict (items : gmap str pyval)
| OInstance (attrs : gmap str pyval).

(** Outcome of a Python expression: a value or a raised exception. *)
Inductive res (A : Type) :=
| Ret (a : A)
| Throw (e : exn).
Arguments Ret {A} a.
Arguments Throw {A} e.

(** What [requests.post] returns: [status_code], [text], and what [json()]
    does when called. *)
Record Response := {
  status_code : Z;
  text : str;
  json : res pyval
}.

(** A call [requests.post(url, json=..., headers=...)] as the library sees
    it: the three arguments and the heap they point into. *)
Record Call := {
  call_url : pyval;
  call_json : pyval;
  call_headers : pyval;
  call_heap : gmap loc object
}.

(** The world outside the class.  [files path] is what
    [open(path, 'r')] followed by [readlines()] does; [transport] is
    [requests.post], which may answer according to the calls made so far. *)
Record Env := {
  files : str → res (list str);
  transport : list Call → Call → res Response
}.

(** The state the class acts on: the object store, what was printed (one
    entry per [print], holding its arguments) and the calls made to
    [requests.post]. *)
Record State := {
  store : gmap loc object;
  stdout : list (list pyval);
  wire : list Call
}.

(** ** The monad of method bodies *)

Definition M (A : Type) : Type := Env → State → res A * State.

#[global] Instance M_ret : MRet M := λ A a _ σ, (Ret a, σ).

#[global] Instance M_bind : MBind M := λ A B f m env σ,
  match m env σ with
  | (Ret a, σ') => f a env σ'
  | (Throw e, σ') => (Throw e, σ')
  end.

(** [raise e] *)
Definition raise {A} (e : exn) : M A := λ _ σ, (Throw e, σ).

(** [if b: body], with nothing to do otherwise. *)
Definition when (b : bool) (body : M unit) : M unit :=
  if b then body else mret ().

(** One [except C as e: handler] clause. *)
Definition clause (A : Type) : Type := (exn → bool) * (exn → M A).

Fixpoint dispatch {A} (e : exn) (clauses : list (clause A)) : M A :=
  match clauses with
  | [] => raise e
  | (matches, handler) :: rest =>
      if matches e then handler e else dispatch e rest
  end.

(** [try: body except ...]: the first clause whose class matches runs, in
    the state the body left; an exception no clause matches goes on. *)
Definition try_except {A} (body : M A) (clauses : list (clause A)) : M A :=
  λ env σ,
    match body env σ with
    | (Ret a, σ') => (Ret a, σ')
    | (Throw e, σ') => dispatch e clauses env σ'
    end.

(** [print(a, b, ...)] *)
Definition print (args : list pyval) : M unit := λ _ σ,
  (Ret (), {| store := store σ; stdout := stdout σ ++ [args]; wire := wire σ |}).

(** A new object, at an address the store does not use. *)
Definition alloc (o : object) : M loc := λ _ σ,
  let l := fresh (dom (store σ)) in
  (Ret l, {| store := <[l := o]> (store σ); stdout := stdout σ; wire := wire σ |}).

Definition message (cls : exn_class) (s : string) : exn :=
  {| exn_cls := cls; exn_str := lit s |}.

(** [d[k] = v] on a dictionary of the store. *)
Definition setitem (d : loc) (k : str) (v : pyval) : M unit := λ _ σ,
  match store σ !! d with
  | Some (ODict items) =>
      (Ret (), {| store := <[d := ODict (<[k := v]> items)]> (store σ);
                  stdout := stdout σ; wire := wire σ |})
  | _ => (Throw (message TypeError "object does not support item assignment"), σ)
  end.

(** [o.name = v] on an instance of the store. *)
Definition setattr (o : loc) (name : str) (v : pyval) : M unit := λ _ σ,
  match store σ !! o with
  | Some (OInstance attrs) =>
      (Ret (), {| store := <[o := OInstance (<[name := v]> attrs)]> (store σ);
                  stdout := stdout σ; wire := wire σ |})
  | _ => (Throw (message AttributeError "object has no attribute"), σ)
  end.

(** [o.name] *)
Definition getattr (o : loc) (name : str) : M pyval := λ _ σ,
  match store σ !! o with
  | Some (OInstance attrs) =>
      match attrs !! name with
      | Some v => (Ret v, σ)
      | None => (Throw (message AttributeError "object has no attribute"), σ)
      end
  | _ => (Throw (message AttributeError "object has no attribute"), σ)
  end.

(** Truth value of a value, as [if v:] and [not v] test it.  A dictionary
    is true when it has an item; an instance of a class without [__bool__]
    or [__len__] is true. *)
Definition truthy (heap : gmap loc object) (v : pyval) : bool :=
  match v with
  | PyNone => false
  | PyBool b => b
  | PyInt z => negb (z =? 0)%Z
  | PyFloat bits => negb (N.land bits (2 ^ 63 - 1) =? 0)
  | PyStr s => str_truthy s
  | PyList xs => match xs with [] => false | _ => true end
  | PyDict items => match items with [] => false | _ => true end
  | PyExn _ => true
  | PyRef l =>
      match heap !! l with
      | Some (ODict items) => negb (size items =? 0)%nat
      | Some (OInstance _) => true
      | None => true
      end
  end.

Definition truth (v : pyval) : M bool := λ _ σ, (Ret (truthy (store σ) v), σ).

(** [with open(path, 'r') as file: file.readlines()] *)
Definition open_readlines (path : str) : M (list str) := λ env σ,
  (files env path, σ).

(** [requests.post(url, json=payload, headers=headers)]: the call is
    recorded, then the transport answers or raises.  The library serialises
    what its arguments point to; it is handed the heap to read and cannot
    write to the store. *)
Definition requests_post (url payload headers : pyval) : M Response :=
  λ env σ,
    let c := {| call_url := url; call_json := payload;
                call_headers := headers; call_heap := store σ |} in
    (transport env (wire σ) c,
     {| store := store σ; stdout := stdout σ; wire := wire σ ++ [c] |}).

(** [response.json()] *)
Definition call_json_method (response : Response) : M pyval := λ _ σ,
  (json response, σ).

(** The text an f-string puts for [{v}].  Only [str] and [None] reach the
    f-string of [__init__]; the other values are not rendered. *)
Definition format_value (v : pyval) : str :=
  match v with
  | PyStr s => s
  | PyNone => lit "None"
  | PyBool true => lit "True"
  | PyBool false => lit "False"
  | PyExn e => exn_str e
  | _ => lit "<object>"
  end.

(** ** The class HeroGraphQLClient *)

Definition k_url : str := Eval cbv in lit "url".
Definition k_api_key : str := Eval cbv in lit "api_key".
Definition k_headers : str := Eval cbv in lit "headers".
Definition k_query : str := Eval cbv in lit "query".
Definition k_variables : str := Eval cbv in lit "variables".
Definition k_content_type : str := Eval cbv in lit "Content-Type".
Definition k_accept : str := Eval cbv in lit "Accept".
Definition k_authorization : str := Eval cbv in lit "Authorization".
Definition application_json : str := Eval cbv in lit "application/json".
Definition bearer : str := Eval cbv in lit "Bearer ".

(** [HeroGraphQLClient.read(file_path)] *)
Definition read (file_path : str) : M pyval :=
  try_except
    (lines ← open_readlines file_path;
     mret (PyStr (read_lines lines)))
    [ (is_FileNotFoundError, λ _,
        print [PyStr (lit "File not found: " ++ file_path)];;
        mret PyNone);
      (is_Exception, λ e,
        print [PyStr (lit "An error occurred while reading the file: " ++ exn_str e)];;
        mret PyNone) ].

(** [HeroGraphQLClient.__init__(self, url, key)] *)
Definition __init__ (self : loc) (url : pyval) (key : str) : M unit :=
  setattr self k_url url;;
  api_key ← read key;
  setattr self k_api_key api_key;;
  api_key ← getattr self k_api_key;
  b ← truth api_key;
  if negb b then
    raise (message ValueError "API key could not be read from the provided .pem file.")
  else
    api_key ← getattr self k_api_key;
    headers ← alloc (ODict (<[k_authorization := PyStr (bearer ++ format_value api_key)]>
                           (<[k_accept := PyStr application_json]>
                           (<[k_content_type := PyStr application_json]> ∅))));
    setattr self k_headers (PyRef headers).

(** The call [HeroGraphQLClient(url, key)]: a new instance is made,
    [__init__] runs on it, and the instance is the value of the call. *)
Definition HeroGraphQLClient (url : pyval) (key : str) : M pyval :=
  self ← alloc (OInstance ∅);
  __init__ self url key;;
  mret (PyRef self).

(** [self.execute_query(query, variables)] *)
Definition execute_query (self : loc) (query : str) (variables : pyval) : M pyval :=
  payload ← alloc (ODict {[ k_query := PyStr query ]});
  b ← truth variables;
  when b (setitem payload k_variables variables);;
  try_except
    (url ← getattr self k_url;
     headers ← getattr self k_headers;
     response ← requests_post url (PyRef payload) headers;
     print [PyStr (newline :: lit "Response status code (Query):");
            PyInt (status_code response)];;
     if (status_code response =? 200)%Z then
       call_json_method response
     else
       print [PyStr (lit "Failed to execute query:"); PyStr (text response)];;
       mret PyNone)
    [ (is_RequestException, λ e,
        print [PyStr (lit "An error occurred while executing the query:"); PyExn e];;
        mret PyNone) ].

(** [self.execute_mutation(mutation, variables)] *)
Definition execute_mutation (self : loc) (mutation : str) (variables : pyval) : M pyval :=
  payload ← alloc (ODict {[ k_query := PyStr mutation ]});
  b ← truth variables;
  when b (setitem payload k_variables variables);;
  try_except
    (url ← getattr self k_url;
     headers ← getattr self k_headers;
     response ← requests_post url (PyRef payload) headers;
     print [PyStr (newline :: lit "Response status code (Mutation):");
            PyInt (status_code response)];;
     if (status_code response =? 200)%Z then
       call_json_method response
     else
       print [PyStr (lit "Failed to execute mutation:"); PyStr (text response)];;
       mret PyNone)
    [ (is_RequestException, λ e,
        print [PyStr (lit "An error occurred while executing the mutation:"); PyExn e];;
        mret PyNone) ].

(** ** The two request methods, side by side *)

Inductive method := Query | Mutation.

Definition execute (m : method) : loc → str → pyval → M pyval :=
  match m with
  | Query => execute_query
  | Mutation => execute_mutation
  end.

(** The three texts a method prints in front of its diagnostics. *)
Definition status_label (m : method) : str :=
  match m with
  | Query => newline :: lit "Response status code (Query):"
  | Mutation => newline :: lit "Response status code (Mutation):"
  end.

Definition failed_label (m : method) : str :=
  match m with
  | Query => lit "Failed to execute query:"
  | Mutation => lit "Failed to execute mutation:"
  end.

Definition error_label (m : method) : str :=
  match m with
  | Query => lit "An error occurred while executing the query:"
  | Mutation => lit "An error occurred while executing the mutation:"
  end.

(** Printed lines of [execute_query] rewritten as [execute_mutation] prints
    them: only the label, the first argument of [print], changes. *)
Definition relabel_text (s : str) : str :=
  if bool_decide (s = status_label Query) then status_label Mutation
  else if bool_decide (s = failed_label Query) then failed_label Mutation
  else if bool_decide (s = error_label Query) then error_label Mutation
  else s.

Definition relabel (line : list pyval) : list pyval :=
  match line with
  | PyStr s :: args => PyStr (relabel_text s) :: args
  | _ => line
  end.

(** ** Views used by the statements *)

(** [self] is an instance holding [url] and [headers], as [__init__]
    leaves it. *)
Definition is_client (σ : State) (self : loc) (url headers : pyval) : Prop :=
  ∃ attrs, store σ !! self = Some (OInstance attrs)
           ∧ attrs !! k_url = Some url
           ∧ attrs !! k_headers = Some headers.

(** The three headers for a token. *)
Definition three_headers (token : str) : gmap str pyval :=
  {[ k_content_type := PyStr application_json;
     k_accept := PyStr application_json;
     k_authorization := PyStr (bearer ++ token) ]}.

(** The error of a construction without credential. *)
Definition invalid_credential : exn :=
  message ValueError "API key could not be read from the provided .pem file.".

(** The request body as [requests.post] finds it behind its [json]
    argument. *)
Definition body_of (c : Call) : option (gmap str pyval) :=
  match call_json c with
  | PyRef p => match call_heap c !! p with
               | Some (ODict items) => Some items
               | _ => None
               end
  | _ => None
  end.

(** The headers as [requests.post] finds them behind its [headers]
    argument. *)
Definition headers_of (c : Call) : option (gmap str pyval) :=
  match call_headers c with
  | PyRef h => match call_heap c !! h with
               | Some (ODict items) => Some items
               | _ => None
               end
  | _ => None
  end.

(** The call a request method makes from state [σ] on a client with url
    [u] and headers [h]. *)
Definition sent (σ : State) (u h : pyval) (q : str) (v : pyval) : Call :=
  let p := fresh (dom (store σ)) in
  let fresh_payload : gmap str pyval := {[ k_query := PyStr q ]} in
  let body :=
    if truthy (<[p := ODict fresh_payload]> (store σ)) v
    then <[k_variables := v]> fresh_payload
    else fresh_payload in
  {| call_url := u; call_json := PyRef p; call_headers := h;
     call_heap := <[p := ODict body]> (store σ) |}.

(** The state after that call, with [out] printed. *)
Definition after (σ : State) (c : Call) (out : list (list pyval)) : State :=
  {| store := call_heap c; stdout := stdout σ ++ out; wire := wire σ ++ [c] |}.

(** A request method on a client, in closed form: what each transport
    outcome leads to. *)
Definition answer (m : method) (σ : State) (c : Call) (o : res Response)
  : res pyval * State :=
  match o with
  | Throw e =>
      if is_RequestException e
      then (Ret PyNone, after σ c [[PyStr (error_label m); PyExn e]])
      else (Throw e, after σ c [])
  | Ret r =>
      let status := [PyStr (status_label m); PyInt (status_code r)] in
      if (status_code r =? 200)%Z then
        match json r with
        | Ret v => (Ret v, after σ c [status])
        | Throw e =>
            if is_RequestException e
            then (Ret PyNone, after σ c [status; [PyStr (error_label m); PyExn e]])
            else (Throw e, after σ c [status])
        end
      else
        (Ret PyNone, after σ c [status; [PyStr (failed_label m); PyStr (text r)]])
  end.

(** The caller makes the requests [calls] one after the other on [self],
    going on whatever each returns or raises. *)
Definition request : Type := method * str * pyval.

Fixpoint session (self : loc) (calls : list request) (env : Env) (σ : State) : State :=
  match calls with
  | [] => σ
  | (m, q, v) :: rest => session self rest env (snd (execute m self q v env σ))
  end.

(** An attribute of an instance, read off the state. *)
Definition attr (σ : State) (o : loc) (name : str) : option pyval :=
  match store σ !! o with
  | Some (OInstance attrs) => attrs !! name
  | _ => None
  end.

(** The dictionary behind [self.headers]. *)
Definition stored_headers (σ : State) (self : loc) : option (gmap str pyval) :=
  match attr σ self k_headers with
  | Some (PyRef h) => match store σ !! h with
                      | Some (ODict items) => Some items
                      | _ => None
                      end
  | _ => None
  end.

(** The client [self] holds [url], the token and the three headers made
    from the token. *)
Definition constructed (σ : State) (self : loc) (url : pyval) (token : str) : Prop :=
  attr σ self k_url = Some url
  ∧ attr σ self k_api_key = Some (PyStr token)
  ∧ stored_headers σ self = Some (three_headers token).

(** Transport outcomes the [except] clause of the request methods covers:
    a response, unless decoding its body raises something else than a
    [RequestException], or a raised [RequestException]. *)
Definition covered (o : res Response) : Prop :=
  match o with
  | Throw e => is_RequestException e = true
  | Ret r =>
      status_code r = 200%Z → ∀ e, json r = Throw e → is_RequestException e = true
  end.

(** Outcomes that are failures: an exception, a status other than 200, a
    body that does not decode. *)
Definition failed (o : res Response) : Prop :=
  match o with
  | Throw _ => True
  | Ret r => status_code r ≠ 200%Z ∨ ∃ e, json r = Throw e
  end.


(** ** The credential loader as the specification words it *)

(** Lines blank once trimmed go, lines whose trimmed content begins with
    five dashes go, the others are trimmed and concatenated. *)
Definition spec_read_lines (lines : list str) : str :=
  join (strip <$> List.filter (λ line, negb (startswith (strip line) dashes))
                    (List.filter (λ line, str_truthy (strip line)) lines)).

(** The same passes, with the delimiter test on the line as it was read. *)
Definition loader_passes (lines : list str) : str :=
  join (strip <$> List.filter (λ line, negb (startswith line dashes))
                    (List.filter (λ line, str_truthy (strip line)) lines)).

(** ** Inputs for the examples *)

Definition nl (s : string) : str := lit s ++ [newline].

Definition quoted (s : string) : str := 34 :: lit s ++ [34].

Definition pem_file : list str :=
  [nl "-----BEGIN KEY-----"; nl " abc "; nl "def"; nl "-----END KEY-----"].

Definition pem_file_unterminated : list str :=
  [lit "-----BEGIN KEY-----"; lit " abc "; lit "def"; lit "-----END KEY-----"].

Definition indented_pem_file : list str :=
  [nl "  -----BEGIN KEY-----"; nl " abc "].

Definition only_delimiters : list str :=
  [nl "-----BEGIN KEY-----"; nl "-----END KEY-----"].

Definition key_path : str := Eval cbv in lit "key.pem".
Definition empty_path : str := Eval cbv in lit "empty.pem".

Definition disk (path : str) : res (list str) :=
  if bool_decide (path = key_path) then Ret pem_file
  else if bool_decide (path = empty_path) then Ret only_delimiters
  else Throw (message FileNotFoundError "No such file or directory").

(** A transport that always answers [o]. *)
Definition stub (o : res Response) : Env :=
  {| files := disk; transport := λ _ _, o |}.

Definition ok_response : Response :=
  {| status_code := 200;
     text := lit "{" ++ quoted "data" ++ lit ":{" ++ quoted "ok" ++ lit ":true}}";
     json := Ret (PyDict [(lit "data", PyDict [(lit "ok", PyBool true)])]) |}.

Definition null_response : Response :=
  {| status_code := 200; text := lit "null"; json := Ret PyNone |}.

Definition error_response : Response :=
  {| status_code := 500; text := lit "null"; json := Ret PyNone |}.

(** A response with status 200 whose body is no JSON: [json()] raises the
    [JSONDecodeError] of the library, a [RequestException]. *)
Definition undecodable_response : Response :=
  {| status_code := 200;
     text := lit "<html>Service unavailable</html>";
     json := Throw (message RequestException
                      "Expecting value: line 1 column 1 (char 0)") |}.

Definition connection_refused : exn :=
  message RequestException "Connection refused".

Definition not_serializable : exn :=
  message TypeError "Object of type set is not JSON serializable".

Definition empty_state : State := {| store := ∅; stdout := []; wire := [] |}.

Definition endpoint : pyval := PyStr (lit "https://login.hero-software.de/api/external/v7/graphql").

(** The state after [HeroGraphQLClient(endpoint, "key.pem")]; the client is
    object 1 and its headers are object 2. *)
Definition client_state : State :=
  Eval vm_compute in snd (HeroGraphQLClient endpoint key_path (stub (Ret ok_response)) empty_state).

Definition client : loc := 1%positive.
Definition client_headers : pyval := PyRef 2%positive.

(** A caller's dictionary [{"id": "1"}], put at a new address of
    [client_state]. *)
Definition id_1 : gmap str pyval := {[ lit "id" := PyStr (lit "1") ]}.

Definition caller_state : State :=
  {| store := <[3%positive := ODict id_1]> (store client_state);
     stdout := stdout client_state; wire := wire client_state |}.

(** The state after [HeroGraphQLClient(endpoint, "empty.pem")], a
    construction that fails for want of a key line: object 1 is the
    instance [__init__] was working on, with [url] and [api_key] set and
    no [headers]. *)
Definition unfinished_state : State :=
  Eval vm_compute in
    snd (HeroGraphQLClient endpoint empty_path (stub (Ret ok_response)) empty_state).

(** ** Further views *)

(** A line [read] drops: blank once trimmed, or beginning with five
    dashes. *)
Definition dropped (line : str) : bool :=
  negb (str_truthy (strip line)) || startswith line dashes.

(** A string of white space only. *)
Definition blank (ws : str) : Prop := Forall (λ c, is_space c = true) ws.

(** No white space at the front, none at the back. *)
Definition no_lead (s : str) : Prop :=
  match s with [] => True | c :: _ => is_space c = false end.

Definition no_trail (s : str) : Prop := no_lead (rev s).

(** ** What the script does with values *)

Definition k_data : str := Eval cbv in lit "data".
Definition k_project_matches : str := Eval cbv in lit "project_matches".
Definition k_errors : str := Eval cbv in lit "errors".
Definition k_create_contact : str := Eval cbv in lit "create_contact".
Definition k_id : str := Eval cbv in lit "id".
Definition k_execute_query : str := Eval cbv in lit "execute_query".
Definition k_execute_mutation : str := Eval cbv in lit "execute_mutation".
Definition k_get : str := Eval cbv in lit "get".

(** [p in s] for two [str]: [p] occurs in [s]. *)
Fixpoint substring (p s : str) : bool :=
  startswith s p || match s with [] => false | _ :: s' => substring p s' end.

(** The entry of a decoded dictionary; its keys are distinct. *)
Fixpoint assoc (key : str) (items : list (str * pyval)) : option pyval :=
  match items with
  | [] => None
  | (k, v) :: rest => if bool_decide (k = key) then Some v else assoc key rest
  end.

(** [x == key] for a [str] key: only an equal [str] is equal to it. *)
Definition equals_str (key : str) (x : pyval) : bool :=
  match x with PyStr s => bool_decide (s = key) | _ => false end.

(** The exceptions of the operations below.  Their text, which changes
    with the version of Python, is shortened; the script never reads it. *)
Definition not_iterable : exn := message TypeError "argument is not iterable".
Definition not_subscriptable : exn := message TypeError "object is not subscriptable".
Definition bad_index : exn := message TypeError "indices must be integers".
Definition not_callable : exn := message TypeError "object is not callable".
Definition no_attribute : exn := message AttributeError "object has no attribute".
Definition key_error (key : str) : exn :=
  {| exn_cls := OtherException; exn_str := 39 :: key ++ [39] |}.

(** [key in container] for a [str] key: a substring of a [str], an
    element of a list, a key of a dictionary; the other values are not
    containers. *)
Definition contains (key : str) (container : pyval) : M bool := λ _ σ,
  match container with
  | PyStr s => (Ret (substring key s), σ)
  | PyList xs => (Ret (existsb (equals_str key) xs), σ)
  | PyDict items =>
      (Ret (match assoc key items with Some _ => true | None => false end), σ)
  | PyRef l =>
      match store σ !! l with
      | Some (ODict items) =>
          (Ret (match items !! key with Some _ => true | None => false end), σ)
      | _ => (Throw not_iterable, σ)
      end
  | _ => (Throw not_iterable, σ)
  end.

(** [container[key]] for a [str] key: the entry of a dictionary, or a
    [KeyError]; a [str] or a list does not take a [str] as index; the
    other values cannot be subscripted. *)
Definition subscript (container : pyval) (key : str) : M pyval := λ _ σ,
  match container with
  | PyDict items =>
      match assoc key items with
      | Some v => (Ret v, σ)
      | None => (Throw (key_error key), σ)
      end
  | PyRef l =>
      match store σ !! l with
      | Some (ODict items) =>
          match items !! key with
          | Some v => (Ret v, σ)
          | None => (Throw (key_error key), σ)
          end
      | _ => (Throw not_subscriptable, σ)
      end
  | PyStr _ | PyList _ => (Throw bad_index, σ)
  | _ => (Throw not_subscriptable, σ)
  end.

(** [obj.get(key)]: the entry of a dictionary, or [None]; an instance has
    an attribute [get] only if one was set, and no value can be called;
    the other values have no attribute [get]. *)
Definition call_get (obj : pyval) (key : str) : M pyval := λ _ σ,
  match obj with
  | PyDict items =>
      (Ret (match assoc key items with Some v => v | None => PyNone end), σ)
  | PyRef l =>
      match store σ !! l with
      | Some (ODict items) =>
          (Ret (match items !! key with Some v => v | None => PyNone end), σ)
      | Some (OInstance attrs) =>
          match attrs !! k_get with
          | Some _ => (Throw not_callable, σ)
          | None => (Throw no_attribute, σ)
          end
      | None => (Throw no_attribute, σ)
      end
  | _ => (Throw no_attribute, σ)
  end.

(** What [for x in v] goes through: the elements of a list, the keys of a
    dictionary, the characters of a [str].  The store keeps no insertion
    order, so the keys of a dictionary of the store come in the order of
    the map; the trees [json()] decodes are by value. *)
Definition iterate (v : pyval) : M (list pyval) := λ _ σ,
  match v with
  | PyList xs => (Ret xs, σ)
  | PyDict items => (Ret ((λ kv, PyStr kv.1) <$> items), σ)
  | PyStr s => (Ret ((λ c, PyStr [c]) <$> s), σ)
  | PyRef l =>
      match store σ !! l with
      | Some (ODict items) => (Ret ((λ kv, PyStr kv.1) <$> map_to_list items), σ)
      | _ => (Throw not_iterable, σ)
      end
  | _ => (Throw not_iterable, σ)
  end.

(** [for x in xs: body] *)
Fixpoint for_each (xs : list pyval) (body : pyval → M unit) : M unit :=
  match xs with
  | [] => mret ()
  | x :: rest => body x;; for_each rest body
  end.

(** The call [obj.name(...)] of a method of the class: an attribute of
    that name set on the instance would be found first, and cannot be
    called; another value has no such method. *)
Definition call_method {A} (obj : pyval) (name : str) (method : loc → M A) : M A :=
  λ env σ,
    match obj with
    | PyRef self =>
        match store σ !! self with
        | Some (OInstance attrs) =>
            match attrs !! name with
            | None => method self env σ
            | Some _ => (Throw not_callable, σ)
            end
        | _ => (Throw no_attribute, σ)
        end
    | _ => (Throw no_attribute, σ)
    end.

(** [a and b] as a condition: [b] is evaluated only when [a] holds. *)
Definition and_then (a : bool) (b : M bool) : M bool :=
  if a then b else mret false.

(** ** The script *)

Definition api_url : str :=
  lit "https://login.hero-software.de/api/external/v7/graphql".

Definition projects_query : str :=
  [newline]
  ++ lit "    query {" ++ [newline]
  ++ lit "      project_matches {" ++ [newline]
  ++ lit "        id" ++ [newline]
  ++ lit "        project_nr" ++ [newline]
  ++ lit "        measure {" ++ [newline]
  ++ lit "          short" ++ [newline]
  ++ lit "          name" ++ [newline]
  ++ lit "        }" ++ [newline]
  ++ lit "        customer {" ++ [newline]
  ++ lit "          id" ++ [newline]
  ++ lit "          first_name" ++ [newline]
  ++ lit "          last_name" ++ [newline]
  ++ lit "          email" ++ [newline]
  ++ lit "        }" ++ [newline]
  ++ lit "        contact {" ++ [newline]
  ++ lit "          id" ++ [newline]
  ++ lit "          first_name" ++ [newline]
  ++ lit "          last_name" ++ [newline]
  ++ lit "          email" ++ [newline]
  ++ lit "        }" ++ [newline]
  ++ lit "        address {" ++ [newline]
  ++ lit "          street" ++ [newline]
  ++ lit "          city" ++ [newline]
  ++ lit "          zipcode" ++ [newline]
  ++ lit "        }" ++ [newline]
  ++ lit "        current_project_match_status {" ++ [newline]
  ++ lit "          status_code" ++ [newline]
  ++ lit "          name" ++ [newline]
  ++ lit "        }" ++ [newline]
  ++ lit "      }" ++ [newline]
  ++ lit "    }" ++ [newline]
  ++ lit "    ".

Definition create_contact_mutation : str :=
  [newline]
  ++ lit "    mutation {" ++ [newline]
  ++ lit "      create_contact(" ++ [newline]
  ++ lit "        contact: {" ++ [newline]
  ++ lit "          first_name: " ++ [34] ++ lit "Max" ++ [34; newline]
  ++ lit "          last_name: " ++ [34] ++ lit "Mustermann" ++ [34; newline]
  ++ lit "          email: " ++ [34] ++ lit "max.mustermann@example.org" ++ [34; newline]
  ++ lit "          source: " ++ [34] ++ lit "Website" ++ [34; newline]
  ++ lit "          address: {" ++ [newline]
  ++ lit "            street: " ++ [34] ++ lit "G" ++ [246] ++ lit "ttinger Hof 9" ++ [34; newline]
  ++ lit "            city: " ++ [34] ++ lit "Hannover" ++ [34; newline]
  ++ lit "            zipcode: " ++ [34] ++ lit "30453" ++ [34; newline]
  ++ lit "          }" ++ [newline]
  ++ lit "        }" ++ [newline]
  ++ lit "      ) {" ++ [newline]
  ++ lit "        id" ++ [newline]
  ++ lit "        # Ggf. weitere Felder, wenn vorhanden:" ++ [newline]
  ++ lit "        # first_name" ++ [newline]
  ++ lit "        # last_name" ++ [newline]
  ++ lit "      }" ++ [newline]
  ++ lit "    }" ++ [newline]
  ++ lit "    ".

(** The report on the projects: lines 136 to 143 of the script. *)
Definition report_projects (projects_response : pyval) : M unit :=
  match projects_response with
  | PyNone => print [PyStr (lit "Failed to retrieve projects.")]
  | _ =>
      print [PyStr (lit "Full response:"); projects_response];;
      has_data ← contains k_data projects_response;
      found ← and_then has_data
                (data ← subscript projects_response k_data;
                 project_matches ← call_get data k_project_matches;
                 truth project_matches);
      if (found : bool) then
        data ← subscript projects_response k_data;
        project_matches ← subscript data k_project_matches;
        print [PyStr (lit "Projects Data:"); project_matches]
      else
        print [PyStr (lit "No project data found or 'project_matches' is empty.")]
  end.

(** The report on the contact: lines 193 to 205 of the script. *)
Definition report_contact (create_contact_response : pyval) : M unit :=
  match create_contact_response with
  | PyNone => print [PyStr (lit "Failed to create a contact.")]
  | _ =>
      print [PyStr (lit "Full mutation response:"); create_contact_response];;
      has_errors ← contains k_errors create_contact_response;
      if (has_errors : bool) then
        print [PyStr (newline :: lit "GraphQL Errors:")];;
        errors ← subscript create_contact_response k_errors;
        errs ← iterate errors;
        for_each errs (λ err, print [err])
      else
        has_data ← contains k_data create_contact_response;
        created ← and_then has_data
                    (data ← subscript create_contact_response k_data;
                     contains k_create_contact data);
        if (created : bool) then
          print [PyStr (newline :: lit "Successfully created contact!")];;
          data ← subscript create_contact_response k_data;
          contact ← subscript data k_create_contact;
          id ← subscript contact k_id;
          print [PyStr (lit "Contact ID:"); id]
        else
          print [PyStr (newline :: lit "No 'data' field found in the response.")]
  end.

(** The script under [if __name__ == "__main__":], for a path of the key
    file; the source leaves the path empty and asks for it to be replaced
    by the real one. *)
Definition script (api_key_path : str) : M unit :=
  client ← HeroGraphQLClient (PyStr api_url) api_key_path;
  projects_response ←
    call_method client k_execute_query (λ self, execute_query self projects_query PyNone);
  print [PyStr (newline :: lit "--- All Projects (project_matches) ---")];;
  report_projects projects_response;;
  create_contact_response ←
    call_method client k_execute_mutation
      (λ self, execute_mutation self create_contact_mutation PyNone);
  print [PyStr (newline :: lit "--- Create Contact (Mutation) ---")];;
  report_contact create_contact_response.

(** The script as it is in the source, with the empty path. *)
Definition main : M unit := script (lit "").

(** A computation that at most prints: it leaves the store and the calls
    made to the transport as they are, whatever it returns or raises. *)
Definition quiet {A} (m : M A) : Prop :=
  ∀ env σ, store (snd (m env σ)) = store σ ∧ wire (snd (m env σ)) = wire σ.

(** A value on which [get] can be called: a dictionary. *)
Definition is_dict (heap : gmap loc object) (v : pyval) : bool :=
  match v with
  | PyDict _ => true
  | PyRef l => match heap !! l with Some (ODict _) => true | _ => false end
  | _ => false
  end.




(** A response as GraphQL servers send it when a request fails:
    [{"errors": [...], "data": null}]. *)
Definition graphql_failure (errs : list pyval) : list (str * pyval) :=
  [(k_errors, PyList errs); (k_data, PyNone)].

(** A request of the script: posted to the url of the script, its body
    the document alone, without [variables]. *)
Definition script_request (doc : str) (c : Call) : Prop :=
  call_url c = PyStr api_url ∧ body_of c = Some {[ k_query := PyStr doc ]}.


(** * Properties *)

(** ** The credential loader *)

Lemma key_lines_passes (lines : list str) :
  key_lines lines =
  strip <$> List.filter (λ line, negb (startswith line dashes))
              (List.filter (λ line, str_truthy (strip line)) lines).
Proof.
  induction lines as [|line rest IH]; [reflexivity|].
  simpl. destruct (str_truthy (strip line)); simpl; [|exact IH].
  destruct (startswith line dashes); simpl; [exact IH|].
  by rewrite IH.
Qed.

(** C2, as the code has it: for every list of lines, [read] discards the
    lines that are empty once trimmed and the lines that begin, as read and
    before any trimming, with five dashes; it trims the others and
    concatenates them in file order with no separator. *)
Theorem read_lines_passes (lines : list str) :
  read_lines lines = loader_passes lines.
Proof. unfold read_lines, loader_passes. by rewrite key_lines_passes. Qed.

(** C2 as stated fails: a delimiter line that is indented is not discarded
    by the code, while its trimmed content begins with five dashes. *)
Lemma read_lines_indented_delimiter :
  ¬ (∀ lines, read_lines lines = spec_read_lines lines).
Proof.
  intros H. specialize (H indented_pem_file).
  vm_compute in H. discriminate H.
Qed.

(** What the code and the words of the specification give on the indented
    file. *)
Example read_lines_indented :
  read_lines indented_pem_file = lit "-----BEGIN KEY-----abc"
  ∧ spec_read_lines indented_pem_file = lit "abc".
Proof. split; reflexivity. Qed.

(** Where the two readings part: only on a delimiter line that is
    indented. *)
Lemma lstrip_split (s : str) :
  ∃ ws, s = ws ++ lstrip s ∧ Forall (λ c, is_space c = true) ws.
Proof.
  induction s as [|c s (ws & Hs & Hws)]; [by exists []|].
  simpl. destruct (is_space c) eqn:Hc.
  - exists (c :: ws). split; [by rewrite Hs at 1|by constructor].
  - by exists [].
Qed.

Lemma rstrip_split (s : str) :
  ∃ ws, s = rstrip s ++ ws ∧ Forall (λ c, is_space c = true) ws.
Proof.
  destruct (lstrip_split (rev s)) as (ws & Hs & Hws).
  exists (rev ws). split.
  - unfold rstrip. rewrite <- rev_app_distr, <- Hs. by rewrite rev_involutive.
  - by apply Forall_rev.
Qed.

Lemma startswith_spaces (a ws p : str) :
  Forall (λ c, is_space c = true) ws →
  Forall (λ c, is_space c = false) p →
  startswith (a ++ ws) p = startswith a p.
Proof.
  intros Hws. revert p.
  induction a as [|x a IH]; intros p Hp.
  - destruct Hp as [|c p Hc Hp]; [by destruct ws|].
    destruct Hws as [|w ws Hw Hws]; [done|]. simpl.
    destruct (c =? w) eqn:Hcw; [|done].
    apply N.eqb_eq in Hcw. congruence.
  - destruct Hp as [|c p Hc Hp]; [done|]. simpl. by rewrite IH.
Qed.

Lemma startswith_cons (a b : char) (s p : str) :
  startswith (b :: s) (a :: p) = (a =? b) && startswith s p.
Proof. reflexivity. Qed.

Lemma startswith_strip (line : str) :
  startswith line dashes = true → startswith (strip line) dashes = true.
Proof.
  intros Hline. unfold strip.
  assert (lstrip line = line) as ->.
  { destruct line as [|c line]; [done|].
    unfold dashes in Hline. rewrite startswith_cons in Hline.
    apply andb_true_iff in Hline as [Hc _]. apply N.eqb_eq in Hc. by subst c. }
  destruct (rstrip_split line) as (ws & Hs & Hws).
  rewrite Hs in Hline at 1.
  rewrite startswith_spaces in Hline; [done|done|].
  unfold dashes. repeat constructor.
Qed.

(** On a file whose delimiter lines are not indented, [read] does what the
    specification words. *)
Lemma read_lines_unindented (lines : list str) :
  Forall (λ line, startswith (strip line) dashes = true →
                  startswith line dashes = true) lines →
  read_lines lines = spec_read_lines lines.
Proof.
  intros Hlines. unfold read_lines, spec_read_lines.
  rewrite key_lines_passes. do 2 f_equal.
  induction Hlines as [|line lines Hline _ IH]; [done|].
  simpl. destruct (str_truthy (strip line)); [|done]. simpl.
  rewrite IH.
  destruct (startswith line dashes) eqn:Hraw.
  - by rewrite (startswith_strip line Hraw).
  - destruct (startswith (strip line) dashes); [|done].
    discriminate (Hline eq_refl).
Qed.

(** [read], outcome by outcome of the file system. *)
Lemma read_run (path : str) (env : Env) (σ : State) :
  read path env σ =
  match files env path with
  | Ret lines => (Ret (PyStr (read_lines lines)), σ)
  | Throw e =>
      if is_FileNotFoundError e then
        (Ret PyNone,
         {| store := store σ;
            stdout := stdout σ ++ [[PyStr (lit "File not found: " ++ path)]];
            wire := wire σ |})
      else if is_Exception e then
        (Ret PyNone,
         {| store := store σ;
            stdout := stdout σ ++
              [[PyStr (lit "An error occurred while reading the file: " ++ exn_str e)]];
            wire := wire σ |})
      else (Throw e, σ)
  end.
Proof.
  unfold read, try_except, open_readlines, mbind, M_bind, mret, M_ret.
  destruct (files env path) as [lines|e]; [reflexivity|].
  simpl. destruct (is_FileNotFoundError e); [reflexivity|].
  destruct (is_Exception e); reflexivity.
Qed.

(** C8: on the file whose lines are [-----BEGIN KEY-----], [ abc ], [def],
    [-----END KEY-----], [read] returns the credential [abcdef]; so it does
    whether or not the lines carry their line terminator. *)
Theorem read_pem_example (env : Env) (σ : State) (path : str) :
  files env path = Ret pem_file ∨ files env path = Ret pem_file_unterminated →
  read path env σ = (Ret (PyStr (lit "abcdef")), σ).
Proof.
  intros [H|H]; rewrite read_run, H; reflexivity.
Qed.

Lemma read_pem_example_witness :
  files (stub (Ret ok_response)) key_path = Ret pem_file
  ∧ read key_path (stub (Ret ok_response)) empty_state
    = (Ret (PyStr (lit "abcdef")), empty_state).
Proof.
  split; [reflexivity|].
  apply (read_pem_example (stub (Ret ok_response)) empty_state key_path).
  left. reflexivity.
Defined.

(** ** The store *)

Lemma fresh_store_None (σ : State) : store σ !! fresh (dom (store σ)) = None.
Proof. apply not_elem_of_dom, is_fresh. Qed.

Lemma fresh_store_ne (σ : State) (l : loc) (o : object) :
  store σ !! l = Some o → fresh (dom (store σ)) ≠ l.
Proof. intros H Heq. rewrite <- Heq, fresh_store_None in H. discriminate. Qed.

Lemma fresh_insert_ne (m : gmap loc object) (l : loc) (o : object) :
  fresh (dom (<[l := o]> m)) ≠ l.
Proof.
  intros Heq. apply (is_fresh (dom (<[l := o]> m))).
  rewrite Heq. apply elem_of_dom. rewrite lookup_insert_eq. by eexists.
Qed.

Lemma fresh_insert_old (m : gmap loc object) (l i : loc) (o x : object) :
  m !! i = Some x → fresh (dom (<[l := o]> m)) ≠ i.
Proof.
  intros Hi Heq. apply (is_fresh (dom (<[l := o]> m))).
  rewrite Heq. apply elem_of_dom.
  destruct (decide (l = i)) as [->|];
    [rewrite lookup_insert_eq | rewrite lookup_insert_ne by done]; by eexists.
Qed.

(** Unfold a method body down to the operations on the state. *)
Ltac run_M :=
  unfold execute, execute_query, execute_mutation, HeroGraphQLClient, __init__,
    mbind, M_bind, mret, M_ret, alloc, truth, when, setitem, setattr, getattr,
    try_except, requests_post, print, call_json_method, raise;
  simpl.

(** Resolve the lookups in a store built by allocations and updates. *)
Ltac lookups :=
  repeat (first
    [ rewrite lookup_insert_eq
    | rewrite insert_insert_eq
    | rewrite lookup_insert_ne by
        (done || apply fresh_insert_ne || (apply not_eq_sym, fresh_insert_ne)
         || (eapply fresh_insert_old; eassumption))
    | match goal with H : _ !! _ = _ |- _ => rewrite H end ]; simpl).

Ltac distinct_keys :=
  solve [ done | intros ?; discriminate | vm_compute; intros ?; discriminate ].

(** Resolve the lookups in a dictionary with literal keys. *)
Ltac map_lookups :=
  repeat first
    [ rewrite lookup_insert_eq
    | rewrite lookup_singleton_eq
    | rewrite lookup_insert_ne by distinct_keys
    | rewrite lookup_singleton_ne by distinct_keys
    | rewrite lookup_empty ].

(** Split on everything a request method branches on. *)
Ltac split_request :=
  repeat (simpl; match goal with
  | |- context [match ?m !! ?k with _ => _ end] => destruct (m !! k) as [?|]
  | |- context [match ?o with ODict _ => _ | OInstance _ => _ end] =>
      is_var o; destruct o
  | |- context [transport ?env ?w ?c] => destruct (transport env w c) as [?|?]
  | |- context [(status_code ?r =? 200)%Z] => destruct (status_code r =? 200)%Z
  | |- context [match json ?r with _ => _ end] => destruct (json r) as [?|?]
  | |- context [is_RequestException ?e] => destruct (is_RequestException e)
  end);
  unfold raise; simpl.


(** ** Construction *)

Lemma three_headers_made (token : str) :
  <[k_authorization := PyStr (bearer ++ token)]>
    (<[k_accept := PyStr application_json]>
      (<[k_content_type := PyStr application_json]> ∅))
  = three_headers token.
Proof.
  unfold three_headers.
  apply map_eq. intros k.
  destruct (decide (k = k_authorization)) as [->|]; [by map_lookups|].
  destruct (decide (k = k_accept)) as [->|]; [by map_lookups|].
  destruct (decide (k = k_content_type)) as [->|]; by map_lookups.
Qed.

(** The three headers are three. *)
Lemma three_headers_size (token : str) : size (three_headers token) = 3%nat.
Proof.
  unfold three_headers.
  rewrite !map_size_insert_None, map_size_singleton; [done| |]; by map_lookups.
Qed.


(** What the call of the class gives, from what [read] gives. *)
Lemma construct_value url key env σ :
  fst (HeroGraphQLClient url key env σ) =
  match fst (read key env σ) with
  | Ret (PyStr (c :: token)) => Ret (PyRef (fresh (dom (store σ))))
  | Ret _ => Throw invalid_credential
  | Throw e => Throw e
  end.
Proof.
  run_M. lookups. rewrite !read_run.
  destruct (files env key) as [lines|e]; simpl.
  - lookups. destruct (read_lines lines); simpl; lookups; reflexivity.
  - destruct (is_FileNotFoundError e); simpl; lookups; [reflexivity|].
    destruct (is_Exception e); simpl; lookups; reflexivity.
Qed.

(** The state a successful construction leaves: the client is
    [constructed], nothing was printed, nothing was sent, and the objects
    there before are as they were. *)
Lemma construct_state url key env σ self σ1 :
  HeroGraphQLClient url key env σ = (Ret (PyRef self), σ1) →
  ∃ token, token ≠ []
    ∧ fst (read key env σ) = Ret (PyStr token)
    ∧ constructed σ1 self url token
    ∧ stdout σ1 = stdout σ
    ∧ wire σ1 = wire σ
    ∧ store σ ⊆ store σ1.
Proof.
  rewrite read_run. run_M. lookups. rewrite read_run.
  destruct (files env key) as [lines|e]; simpl.
  - lookups. destruct (read_lines lines) as [|c token] eqn:Htok; simpl; lookups;
      [discriminate|].
    intros [= <- <-]. exists (c :: token).
    repeat split; try done.
    + unfold attr. simpl. lookups. by map_lookups.
    + unfold attr. simpl. lookups. by map_lookups.
    + unfold stored_headers, attr. simpl. lookups. map_lookups. lookups.
      by rewrite <- three_headers_made.
    + simpl. apply map_subseteq_spec. intros i x Hi.
      pose proof (fresh_store_ne σ i x Hi).
      rewrite !lookup_insert_ne; try done.
      eapply fresh_insert_old; eassumption.
  - destruct (is_FileNotFoundError e); simpl; lookups; [discriminate|].
    destruct (is_Exception e); simpl; lookups; discriminate.
Qed.



(** ** Requests on a client *)

Lemma answer_after m σ c o : ∃ out, snd (answer m σ c o) = after σ c out.
Proof.
  unfold answer. destruct o as [r|e].
  - destruct (status_code r =? 200)%Z; [destruct (json r) as [val|e]|];
      try destruct (is_RequestException e); by eexists.
  - destruct (is_RequestException e); by eexists.
Qed.

Lemma sent_heap_grows σ u h q v : store σ ⊆ call_heap (sent σ u h q v).
Proof. unfold sent. simpl. apply insert_subseteq, fresh_store_None. Qed.

Lemma headers_of_sent σ u h q v items :
  store σ !! h = Some (ODict items) →
  headers_of (sent σ u (PyRef h) q v) = Some items.
Proof.
  intros Hh. unfold headers_of, sent. simpl.
  rewrite lookup_insert_ne by (eapply fresh_store_ne; eassumption).
  by rewrite Hh.
Qed.

Section Requests.

Context (m : method) (env : Env) (σ : State) (self : loc) (u h : pyval).
Context (q : str) (v : pyval).
Hypothesis Hclient : is_client σ self u h.

(** The transport's outcome for the call the method makes. *)
Local Abbreviation outcome := (transport env (wire σ) (sent σ u h q v)).

(** A request method on a client makes the call [sent] and goes on as
    [answer] says. *)
Lemma execute_client : execute m self q v env σ = answer m σ (sent σ u h q v) outcome.
Proof.
  destruct Hclient as (attrs & Hself & Hu & Hh).
  pose proof (fresh_store_ne σ self _ Hself) as Hne.
  unfold sent, answer, after.
  destruct m; run_M;
    (destruct (truthy _ v) eqn:Ht; simpl; lookups;
     (destruct (transport env _ _) as [r|e]; simpl;
      [ destruct (status_code r =? 200)%Z; simpl;
        [destruct (json r) as [val|e]; simpl|]
      | ];
      try destruct (is_RequestException e);
      unfold raise; simpl; rewrite <- ?app_assoc, ?app_nil_r; reflexivity)).
Qed.

(** One call goes out, and it is [sent]. *)
Lemma request_sent :
  wire (snd (execute m self q v env σ)) = wire σ ++ [sent σ u h q v].
Proof.
  rewrite execute_client.
  by destruct (answer_after m σ (sent σ u h q v) outcome) as [out ->].
Qed.

Lemma execute_value_200 (r : Response) (val : pyval) :
  outcome = Ret r →
  status_code r = 200%Z →
  json r = Ret val →
  fst (execute m self q v env σ) = Ret val.
Proof.
  intros Hr Hs Hj. rewrite execute_client, Hr. simpl.
  apply Z.eqb_eq in Hs. by rewrite Hs, Hj.
Qed.

Lemma execute_value_failed :
  covered outcome → failed outcome → fst (execute m self q v env σ) = Ret PyNone.
Proof.
  intros Hcov Hfail. rewrite execute_client.
  destruct outcome as [r|e]; simpl in *.
  - destruct (status_code r =? 200)%Z eqn:Hs; [|done].
    apply Z.eqb_eq in Hs. destruct Hfail as [Hne|[e He]]; [done|].
    by rewrite He, (Hcov Hs e He).
  - by rewrite Hcov.
Qed.



(** C4: on a client, the body of the request is the object with the key
    [query] mapped to the document; it holds the key [variables], mapped to
    the very mapping that was given, exactly when a mapping is given and is
    not empty, and has no key [variables] when the argument is absent or is
    an empty mapping. *)
Theorem request_body :
  ∃ c, wire (snd (execute m self q v env σ)) = wire σ ++ [c]
    ∧ (v = PyNone → body_of c = Some {[ k_query := PyStr q ]})
    ∧ (∀ l items, v = PyRef l → store σ !! l = Some (ODict items) →
         call_heap c !! l = Some (ODict items)
         ∧ (items = ∅ → body_of c = Some {[ k_query := PyStr q ]})
         ∧ (items ≠ ∅ →
              body_of c = Some (<[ k_variables := PyRef l ]> {[ k_query := PyStr q ]})))
    ∧ ∀ body, body_of c = Some body →
        body !! k_query = Some (PyStr q)
        ∧ (body !! k_variables = None ∨ body !! k_variables = Some v).
Proof.
  exists (sent σ u h q v). split; [exact request_sent|].
  split; [|split].
  - intros ->. unfold body_of, sent. simpl. by rewrite lookup_insert_eq.
  - intros l items -> Hl.
    pose proof (fresh_store_ne σ l _ Hl) as Hne.
    unfold body_of, sent. simpl.
    rewrite lookup_insert_eq, !lookup_insert_ne, Hl by done. simpl.
    split; [done|]. split.
    + intros ->. by rewrite map_size_empty.
    + intros Hitems. apply map_size_non_empty_iff in Hitems.
      destruct (size items) eqn:Hsz; done.
  - intros body. unfold body_of, sent. simpl. rewrite lookup_insert_eq.
    intros [= <-]. destruct (truthy _ v); split; map_lookups; auto.
Qed.

End Requests.

(** C9: on a client, a response with status 200 whose body is the JSON
    literal null, which [json()] decodes to [None], makes the methods
    return [None], the very value they return after a transport or status
    failure. *)
Theorem null_body_returns_none m env env' σ self u h q v r :
  is_client σ self u h →
  transport env (wire σ) (sent σ u h q v) = Ret r →
  status_code r = 200%Z →
  json r = Ret PyNone →
  covered (transport env' (wire σ) (sent σ u h q v)) →
  failed (transport env' (wire σ) (sent σ u h q v)) →
  fst (execute m self q v env σ) = Ret PyNone
  ∧ fst (execute m self q v env' σ) = fst (execute m self q v env σ).
Proof.
  intros Hclient Hr Hs Hj Hcov Hfail.
  rewrite (execute_value_200 m env σ self u h q v Hclient r PyNone Hr Hs Hj).
  split; [done|]. by apply (execute_value_failed m env' σ self u h q v).
Qed.



(** What the methods return on that response, and on a status 500. *)
Example undecodable_returns_none :
  fst (execute Query client (lit "query { id }") PyNone
         (stub (Ret undecodable_response)) client_state) = Ret PyNone
  ∧ fst (execute Query client (lit "query { id }") PyNone
           (stub (Ret error_response)) client_state) = Ret PyNone.
Proof. split; vm_compute; reflexivity. Qed.

(** *** The examples of the specification *)

Lemma client_state_made :
  HeroGraphQLClient endpoint key_path (stub (Ret ok_response)) empty_state
  = (Ret (PyRef client), client_state).
Proof. vm_compute. reflexivity. Qed.

Lemma client_state_is_client : is_client client_state client endpoint client_headers.
Proof.
  unfold is_client. eexists. split; [reflexivity|]. split; reflexivity.
Qed.

Lemma caller_state_is_client : is_client caller_state client endpoint client_headers.
Proof.
  unfold is_client. eexists. split; [reflexivity|]. split; reflexivity.
Qed.



Lemma null_body_returns_none_witness :
  fst (execute Query client (lit "query { id }") PyNone (stub (Ret null_response))
         client_state) = Ret PyNone
  ∧ fst (execute Query client (lit "query { id }") PyNone (stub (Throw connection_refused))
           client_state)
    = fst (execute Query client (lit "query { id }") PyNone (stub (Ret null_response))
             client_state).
Proof.
  apply (null_body_returns_none Query (stub (Ret null_response))
           (stub (Throw connection_refused)) client_state client endpoint client_headers
           (lit "query { id }") PyNone null_response client_state_is_client
           eq_refl eq_refl eq_refl eq_refl I).
Defined.

Lemma request_body_witness :
  ∃ c, wire (snd (execute Query client (lit "query { id }") (PyRef 3%positive)
                    (stub (Ret ok_response)) caller_state))
       = wire caller_state ++ [c]
     ∧ body_of c = Some (<[ k_variables := PyRef 3%positive ]>
                          {[ k_query := PyStr (lit "query { id }") ]})
     ∧ call_heap c !! 3%positive = Some (ODict id_1).
Proof.
  destruct (request_body Query (stub (Ret ok_response)) caller_state client endpoint
              client_headers (lit "query { id }") (PyRef 3%positive)
              caller_state_is_client) as (c & Hwire & _ & Hmap & _).
  destruct (Hmap 3%positive id_1 eq_refl eq_refl) as (Hheap & _ & Hbody).
  exists c. split; [exact Hwire|]. split; [|exact Hheap].
  apply Hbody. intros Hempty.
  assert (id_1 !! lit "id" = (∅ : gmap str pyval) !! lit "id") as Habs
    by (by rewrite Hempty).
  discriminate Habs.
Defined.

(** With [variables] left out the body has the key [query] only. *)
Example body_without_variables :
  ∃ c, wire (snd (execute Query client (lit "query { id }") PyNone
                    (stub (Ret ok_response)) client_state)) = [c]
       ∧ body_of c = Some {[ k_query := PyStr (lit "query { id }") ]}.
Proof. eexists. split; vm_compute; reflexivity. Qed.

(** ** The store across a request *)

(** Whatever happens, a request method leaves the store as it was, but for
    the payload it allocates at a new address. *)
Lemma execute_store m self q v env σ :
  ∃ body, store (snd (execute m self q v env σ))
          = <[fresh (dom (store σ)) := ODict body]> (store σ).
Proof.
  destruct m; run_M;
    (destruct (truthy _ v); simpl; lookups; split_request;
     eexists; reflexivity).
Qed.

(** C10: a call of either method, however it ends, leaves every object the
    store held before the call as it was; so the mapping passed as
    [variables] is after the call what it was before. *)
Theorem variables_untouched m self q v env σ l o :
  store σ !! l = Some o →
  store (snd (execute m self q v env σ)) !! l = Some o.
Proof.
  intros Hl. destruct (execute_store m self q v env σ) as [body ->].
  rewrite lookup_insert_ne; [done|]. by eapply fresh_store_ne.
Qed.

Lemma variables_untouched_witness :
  store caller_state !! 3%positive = Some (ODict id_1)
  ∧ store (snd (execute Mutation client (lit "mutation { id }") (PyRef 3%positive)
                  (stub (Throw not_serializable)) caller_state)) !! 3%positive
    = Some (ODict id_1).
Proof.
  split; [reflexivity|].
  apply (variables_untouched Mutation client (lit "mutation { id }") (PyRef 3%positive)
           (stub (Throw not_serializable)) caller_state 3%positive (ODict id_1)).
  reflexivity.
Defined.

(** ** The client across its requests *)

Lemma constructed_is_client σ self url token :
  constructed σ self url token →
  ∃ h, is_client σ self url (PyRef h)
       ∧ store σ !! h = Some (ODict (three_headers token)).
Proof.
  unfold constructed, stored_headers, attr, is_client.
  intros (Hu & _ & Hh).
  destruct (store σ !! self) as [[?|attrs]|]; try discriminate.
  destruct (attrs !! k_headers) as [[]|] eqn:Hattr; try discriminate.
  destruct (store σ !! l) as [[items|?]|] eqn:Hl; try discriminate.
  exists l. split; [by exists attrs|]. congruence.
Qed.

Lemma constructed_mono σ σ' self url token :
  store σ ⊆ store σ' → constructed σ self url token → constructed σ' self url token.
Proof.
  intros Hsub Hc.
  destruct (constructed_is_client _ _ _ _ Hc) as (h & (attrs & Hself & Hu & Hh) & Hhdr).
  destruct Hc as (_ & Hk & _).
  unfold attr in Hk. rewrite Hself in Hk.
  pose proof (lookup_weaken _ _ _ _ Hself Hsub) as Hself'.
  pose proof (lookup_weaken _ _ _ _ Hhdr Hsub) as Hhdr'.
  unfold constructed, stored_headers, attr.
  by rewrite Hself', Hh, Hhdr'.
Qed.

(** One request on a client: the client is left as it was, and one call
    goes out, carrying the three headers. *)
Lemma execute_keeps m env σ self url token q v :
  constructed σ self url token →
  constructed (snd (execute m self q v env σ)) self url token
  ∧ ∃ c, wire (snd (execute m self q v env σ)) = wire σ ++ [c]
         ∧ headers_of c = Some (three_headers token).
Proof.
  intros Hc.
  destruct (constructed_is_client _ _ _ _ Hc) as (h & Hclient & Hhdr).
  split.
  - eapply constructed_mono; [|exact Hc].
    destruct (execute_store m self q v env σ) as [body ->].
    apply insert_subseteq, fresh_store_None.
  - exists (sent σ url (PyRef h) q v).
    split; [by apply request_sent | by apply headers_of_sent].
Qed.

(** Induction on the requests of a session. *)
Lemma session_keeps env self url token calls :
  ∀ σ, constructed σ self url token →
    constructed (session self calls env σ) self url token
    ∧ ∃ made, wire (session self calls env σ) = wire σ ++ made
              ∧ length made = length calls
              ∧ Forall (λ c, headers_of c = Some (three_headers token)) made.
Proof.
  induction calls as [|[[m q] v] rest IH]; intros σ Hc; simpl.
  - split; [done|]. exists []. by rewrite app_nil_r.
  - destruct (execute_keeps m env σ self url token q v Hc) as (Hc' & c & Hwire & Hhdr).
    destruct (IH _ Hc') as (Hc'' & made & Hwire' & Hlen & Hall).
    split; [done|]. exists (c :: made).
    rewrite Hwire', Hwire, <- app_assoc. simpl.
    repeat split; [by rewrite Hlen | by constructor].
Qed.

(** C6: for a client that was constructed, whatever requests the caller
    then makes, each request goes out once and carries the three headers
    [Content-Type: application/json], [Accept: application/json] and
    [Authorization: Bearer] followed by the token the loader returned, and
    the client holds the same url, token and headers after the requests as
    after its construction. *)
Theorem same_headers_every_request env σ0 url key self σ1 calls :
  HeroGraphQLClient url key env σ0 = (Ret (PyRef self), σ1) →
  ∃ token,
    fst (read key env σ0) = Ret (PyStr token)
    ∧ constructed σ1 self url token
    ∧ constructed (session self calls env σ1) self url token
    ∧ ∃ made, wire (session self calls env σ1) = wire σ0 ++ made
        ∧ length made = length calls
        ∧ Forall (λ c, headers_of c = Some (three_headers token)) made.
Proof.
  intros Hmade.
  destruct (construct_state url key env σ0 self σ1 Hmade)
    as (token & _ & Hread & Hc & _ & Hwire & _).
  exists token. split; [done|]. split; [done|].
  destruct (session_keeps env self url token calls σ1 Hc) as (Hc' & made & Hw & Hlen & Hall).
  split; [done|]. exists made. by rewrite Hw, Hwire.
Qed.

Lemma same_headers_every_request_witness :
  ∃ token,
    fst (read key_path (stub (Ret ok_response)) empty_state) = Ret (PyStr token)
    ∧ constructed client_state client endpoint token
    ∧ constructed
        (session client [(Query, lit "query { id }", PyNone);
                         (Mutation, lit "mutation { id }", PyNone)]
           (stub (Ret ok_response)) client_state) client endpoint token
    ∧ ∃ made,
        wire (session client [(Query, lit "query { id }", PyNone);
                              (Mutation, lit "mutation { id }", PyNone)]
                (stub (Ret ok_response)) client_state) = wire empty_state ++ made
        ∧ length made = 2%nat
        ∧ Forall (λ c, headers_of c = Some (three_headers token)) made.
Proof.
  apply (same_headers_every_request (stub (Ret ok_response)) empty_state endpoint
           key_path client client_state
           [(Query, lit "query { id }", PyNone); (Mutation, lit "mutation { id }", PyNone)]
           client_state_made).
Defined.

(** ** The two methods compared *)

Ltac same_output :=
  first
    [ exists []; split; [by rewrite app_nil_r | by rewrite app_nil_r]
    | eexists; split;
      [ rewrite <- ?app_assoc; simpl; reflexivity
      | rewrite <- ?app_assoc; simpl; reflexivity ] ].

(** C7: the two methods behave alike: for every client reference, document,
    variables and environment they return the same result, leave the same
    store and make the same calls to the transport, request body included;
    what they print differs in the label only. *)
Theorem query_mutation_same (self : loc) (q : str) (v : pyval) (env : Env) (σ : State) :
  fst (execute_mutation self q v env σ) = fst (execute_query self q v env σ)
  ∧ store (snd (execute_mutation self q v env σ)) = store (snd (execute_query self q v env σ))
  ∧ wire (snd (execute_mutation self q v env σ)) = wire (snd (execute_query self q v env σ))
  ∧ ∃ out, stdout (snd (execute_query self q v env σ)) = stdout σ ++ out
         ∧ stdout (snd (execute_mutation self q v env σ)) = stdout σ ++ (relabel <$> out).
Proof.
  run_M.
  destruct (truthy _ v); simpl; lookups; split_request;
    (split; [reflexivity|]; split; [reflexivity|]; split; [reflexivity|]);
    same_output.
Qed.

(** * Further properties *)

(** ** The credential loader, line by line *)

Lemma key_lines_app (a b : list str) :
  key_lines (a ++ b) = key_lines a ++ key_lines b.
Proof.
  induction a as [|line a IH]; [done|]. simpl.
  destruct (str_truthy (strip line) && negb (startswith line dashes)); simpl;
    by rewrite IH.
Qed.

(** X1: the credential of a file is the concatenation of the credentials
    of its parts, and a dropped line (blank once trimmed, or beginning with
    five dashes) can be put in or taken out anywhere without changing it. *)
Theorem read_lines_app (a b : list str) (line : str) :
  read_lines (a ++ b) = read_lines a ++ read_lines b
  ∧ (dropped line = true → read_lines (a ++ line :: b) = read_lines (a ++ b)).
Proof.
  unfold read_lines, join. split.
  - by rewrite key_lines_app, concat_app.
  - intros Hd. rewrite !key_lines_app. simpl.
    unfold dropped in Hd.
    destruct (str_truthy (strip line)); [|done].
    destruct (startswith line dashes); done.
Qed.

Lemma read_lines_app_witness :
  dropped (nl "-----END KEY-----") = true
  ∧ read_lines ([nl " abc "] ++ nl "-----END KEY-----" :: [nl "def"])
    = read_lines ([nl " abc "] ++ [nl "def"]).
Proof.
  split; [reflexivity|].
  apply (read_lines_app [nl " abc "] [nl "def"] (nl "-----END KEY-----")).
  reflexivity.
Defined.

Lemma lstrip_blank_app (ws s : str) : blank ws → lstrip (ws ++ s) = lstrip s.
Proof.
  induction 1 as [|c ws Hc _ IH]; [done|]. simpl. by rewrite Hc.
Qed.

Lemma lstrip_blank (ws : str) : blank ws → lstrip ws = [].
Proof.
  intros H. rewrite <- (app_nil_r ws). by rewrite lstrip_blank_app.
Qed.

Lemma lstrip_app (s t : str) :
  lstrip s ≠ [] → lstrip (s ++ t) = lstrip s ++ t.
Proof.
  induction s as [|c s IH]; [done|]. simpl.
  destruct (is_space c); [exact IH|done].
Qed.

Lemma lstrip_nil_blank (s : str) : lstrip s = [] → blank s.
Proof.
  induction s as [|c s IH]; [constructor|]. simpl.
  destruct (is_space c) eqn:Hc; [|done].
  intros H. constructor; [done|by apply IH].
Qed.

Lemma blank_rev (ws : str) : blank ws → blank (rev ws).
Proof. apply Forall_rev. Qed.

Lemma rstrip_app_blank (s ws : str) : blank ws → rstrip (s ++ ws) = rstrip s.
Proof.
  intros Hws. unfold rstrip.
  by rewrite rev_app_distr, lstrip_blank_app by by apply blank_rev.
Qed.

Lemma strip_app_blank (s ws : str) : blank ws → strip (s ++ ws) = strip s.
Proof.
  intros Hws. unfold strip.
  destruct (lstrip s) as [|c s'] eqn:Hs.
  - rewrite lstrip_blank; [done|].
    apply Forall_app. split; [by apply lstrip_nil_blank|done].
  - rewrite lstrip_app by by rewrite Hs.
    rewrite Hs. by apply rstrip_app_blank.
Qed.

(** X2: white space at the end of the lines does not matter: the
    credential is the same whether the lines end in a line feed, in a
    carriage return and a line feed, in blanks, or in nothing. *)
Theorem read_lines_trailing_space (lines : list (str * str)) :
  Forall (λ p, blank p.2) lines →
  read_lines ((λ p, p.1 ++ p.2) <$> lines) = read_lines (fst <$> lines).
Proof.
  intros Hall. unfold read_lines. f_equal.
  induction Hall as [|[line ws] lines Hws _ IH]; [done|].
  rewrite !fmap_cons. cbn [key_lines fst snd].
  rewrite IH, (strip_app_blank line ws Hws).
  rewrite (startswith_spaces line ws dashes Hws); [done|].
  unfold dashes. repeat constructor.
Qed.

Lemma read_lines_trailing_space_witness :
  read_lines [lit "-----BEGIN KEY-----" ++ [13; 10]; lit " abc " ++ [13; 10];
              lit "def" ++ [32; 9]; lit "-----END KEY-----" ++ []]
  = read_lines [lit "-----BEGIN KEY-----"; lit " abc "; lit "def";
                lit "-----END KEY-----"].
Proof.
  apply (read_lines_trailing_space
           [(lit "-----BEGIN KEY-----", [13; 10]); (lit " abc ", [13; 10]);
            (lit "def", [32; 9]); (lit "-----END KEY-----", [])]).
  repeat constructor.
Defined.

Lemma lstrip_no_lead (s : str) : no_lead (lstrip s).
Proof.
  induction s as [|c s IH]; [done|]. simpl.
  destruct (is_space c) eqn:Hc; [exact IH|exact Hc].
Qed.

Lemma no_lead_lstrip (s : str) : no_lead s → lstrip s = s.
Proof. destruct s as [|c s]; [done|]. simpl. by intros ->. Qed.

Lemma no_trail_rstrip (s : str) : no_trail s → rstrip s = s.
Proof.
  unfold no_trail, rstrip. intros H.
  by rewrite (no_lead_lstrip _ H), rev_involutive.
Qed.

Lemma rstrip_no_trail (s : str) : no_trail (rstrip s).
Proof.
  unfold no_trail, rstrip. rewrite rev_involutive. apply lstrip_no_lead.
Qed.

Lemma rstrip_no_lead (s : str) : no_lead s → no_lead (rstrip s).
Proof.
  intros Hs. destruct (rstrip_split s) as (ws & Heq & _).
  destruct (rstrip s) as [|c r]; [done|].
  rewrite Heq in Hs. exact Hs.
Qed.

Lemma strip_no_lead (s : str) : no_lead (strip s).
Proof. apply rstrip_no_lead, lstrip_no_lead. Qed.

Lemma strip_no_trail (s : str) : no_trail (strip s).
Proof. apply rstrip_no_trail. Qed.

Lemma no_lead_app (a b : str) : no_lead a → no_lead b → no_lead (a ++ b).
Proof. by destruct a. Qed.

Lemma no_lead_concat (parts : list str) :
  Forall no_lead parts → no_lead (concat parts).
Proof.
  induction 1 as [|p parts Hp _ IH]; [done|]. simpl. by apply no_lead_app.
Qed.

Lemma no_trail_concat (parts : list str) :
  Forall no_trail parts → no_trail (concat parts).
Proof.
  unfold no_trail.
  induction 1 as [|p parts Hp _ IH]; [done|]. simpl.
  rewrite rev_app_distr. by apply no_lead_app.
Qed.

Lemma key_lines_stripped (lines : list str) :
  Forall no_lead (key_lines lines) ∧ Forall no_trail (key_lines lines).
Proof.
  induction lines as [|line lines [IH1 IH2]]; [by split|]. simpl.
  destruct (str_truthy (strip line) && negb (startswith line dashes)); [|done].
  split; constructor; auto using strip_no_lead, strip_no_trail.
Qed.

(** X3: the credential [read] builds neither begins nor ends with white
    space: trimming it changes nothing, and no line terminator is left at
    its end. *)
Theorem read_lines_trimmed (lines : list str) :
  strip (read_lines lines) = read_lines lines
  ∧ no_lead (read_lines lines) ∧ no_trail (read_lines lines).
Proof.
  destruct (key_lines_stripped lines) as [H1 H2].
  pose proof (no_lead_concat _ H1) as Hl.
  pose proof (no_trail_concat _ H2) as Ht.
  split; [|by split].
  unfold strip, read_lines, join.
  by rewrite (no_lead_lstrip _ Hl), (no_trail_rstrip _ Ht).
Qed.

Lemma read_lines_empty_iff (lines : list str) :
  read_lines lines = [] ↔ Forall (λ line, dropped line = true) lines.
Proof.
  unfold read_lines, join.
  induction lines as [|line lines IH]; [by split|]. simpl.
  rewrite Forall_cons. unfold dropped at 1.
  destruct (str_truthy (strip line)) eqn:Hs; simpl.
  - destruct (startswith line dashes) eqn:Hd; simpl.
    + rewrite IH. by intuition.
    + split; [|by intros [? _]].
      destruct (strip line); [done|discriminate].
  - rewrite IH. by intuition.
Qed.

Lemma construct_fails_iff (env : Env) (σ : State) (url : pyval) (key : str) :
  fst (HeroGraphQLClient url key env σ) = Throw invalid_credential
  ↔ (∃ e, files env key = Throw e ∧ is_Exception e = true)
    ∨ (∃ lines, files env key = Ret lines
                ∧ Forall (λ line, dropped line = true) lines).
Proof.
  rewrite construct_value, read_run.
  destruct (files env key) as [lines|e]; simpl.
  - destruct (read_lines lines) as [|c token] eqn:Htok.
    + apply read_lines_empty_iff in Htok. split; [|done].
      intros _. right. by exists lines.
    + split; [discriminate|].
      intros [(e & [=] & _)|(lines' & [= <-] & Hall)].
      apply read_lines_empty_iff in Hall. congruence.
  - destruct (is_FileNotFoundError e) eqn:Hf; simpl.
    + split; [|done]. intros _. left. exists e. split; [done|].
      unfold is_FileNotFoundError, is_Exception in *. by destruct (exn_cls e).
    + destruct (is_Exception e) eqn:He; simpl.
      * split; [|done]. intros _. left. by exists e.
      * split.
        -- intros [= ->]. discriminate.
        -- intros [(e' & [= <-] & He')|(lines & [=] & _)]. congruence.
Qed.





(** ** Construction and the world *)

Lemma construct_frame (url : pyval) (key : str) (env : Env) (σ : State) :
  wire (snd (HeroGraphQLClient url key env σ)) = wire σ
  ∧ stdout (snd (HeroGraphQLClient url key env σ)) = stdout (snd (read key env σ))
  ∧ store σ ⊆ store (snd (HeroGraphQLClient url key env σ)).
Proof.
  rewrite read_run. run_M. lookups. rewrite read_run.
  destruct (files env key) as [lines|e]; simpl; lookups;
    [ destruct (read_lines lines) as [|c token]; simpl; lookups
    | destruct (is_FileNotFoundError e); simpl; lookups;
      [|destruct (is_Exception e); simpl; lookups] ];
    (split; [done|]; split; [done|]; simpl;
     apply map_subseteq_spec; intros i x Hi;
     pose proof (fresh_store_ne σ i x Hi);
     rewrite !lookup_insert_ne; try done;
     eapply fresh_insert_old; eassumption).
Qed.

(** X6: constructing a client, whether it succeeds or fails, calls the
    transport not once, prints what [read] prints and nothing more, and
    leaves every object that was in the store as it was. *)
Theorem construction_quiet (url : pyval) (key : str) (env : Env) (σ : State) :
  wire (snd (HeroGraphQLClient url key env σ)) = wire σ
  ∧ stdout (snd (HeroGraphQLClient url key env σ)) = stdout (snd (read key env σ))
  ∧ store σ ⊆ store (snd (HeroGraphQLClient url key env σ)).
Proof. apply construct_frame. Qed.

(** ** Requests, one by one *)

Lemma sent_url σ u h q v : call_url (sent σ u h q v) = u.
Proof. reflexivity. Qed.

Lemma sent_body_query σ u h q v :
  ∃ body, body_of (sent σ u h q v) = Some body ∧ body !! k_query = Some (PyStr q).
Proof.
  unfold body_of, sent. simpl. rewrite lookup_insert_eq.
  eexists. split; [reflexivity|].
  destruct (truthy _ v); by map_lookups.
Qed.

Lemma session_in_order env self url token calls :
  ∀ σ, constructed σ self url token →
    ∃ made, wire (session self calls env σ) = wire σ ++ made
      ∧ Forall2 (λ c (r : request),
                   call_url c = url
                   ∧ ∃ body, body_of c = Some body
                             ∧ body !! k_query = Some (PyStr r.1.2))
                made calls.
Proof.
  induction calls as [|[[m q] v] rest IH]; intros σ Hc; simpl.
  - exists []. by rewrite app_nil_r.
  - destruct (execute_keeps m env σ self url token q v Hc) as (Hc' & _).
    destruct (constructed_is_client _ _ _ _ Hc) as (h & Hclient & _).
    destruct (IH _ Hc') as (made & Hwire & Hall).
    exists (sent σ url (PyRef h) q v :: made). split.
    + rewrite Hwire, (request_sent m env σ self url (PyRef h) q v Hclient).
      by rewrite <- app_assoc.
    + constructor; [|done]. split; [done|]. apply sent_body_query.
Qed.

(** X7: for a client that was constructed, the requests a caller makes go
    out in the order of the calls, one for each call, every one to the url
    given to the constructor and with the document of its call under the
    key [query]. *)
Theorem session_requests_in_order env σ0 url key self σ1 calls :
  HeroGraphQLClient url key env σ0 = (Ret (PyRef self), σ1) →
  ∃ made, wire (session self calls env σ1) = wire σ0 ++ made
    ∧ Forall2 (λ c (r : request),
                 call_url c = url
                 ∧ ∃ body, body_of c = Some body
                           ∧ body !! k_query = Some (PyStr r.1.2))
              made calls.
Proof.
  intros Hmade.
  destruct (construct_state url key env σ0 self σ1 Hmade)
    as (token & _ & _ & Hc & _ & Hwire & _).
  destruct (session_in_order env self url token calls σ1 Hc) as (made & Hw & Hall).
  exists made. by rewrite Hw, Hwire.
Qed.

Lemma session_requests_in_order_witness :
  ∃ made,
    wire (session client [(Query, lit "query { id }", PyNone);
                          (Mutation, lit "mutation { id }", PyNone)]
            (stub (Ret error_response)) client_state) = wire empty_state ++ made
    ∧ Forall2 (λ c (r : request),
                 call_url c = endpoint
                 ∧ ∃ body, body_of c = Some body
                           ∧ body !! k_query = Some (PyStr r.1.2))
              made [(Query, lit "query { id }", PyNone);
                    (Mutation, lit "mutation { id }", PyNone)].
Proof.
  apply (session_requests_in_order (stub (Ret error_response)) empty_state endpoint
           key_path client client_state
           [(Query, lit "query { id }", PyNone); (Mutation, lit "mutation { id }", PyNone)]).
  vm_compute. reflexivity.
Defined.

(** X8: a request on an object that lacks the attribute [url] or the
    attribute [headers] raises an [AttributeError]: nothing is sent and
    nothing is printed. *)
Theorem request_without_attributes m env σ self q v :
  attr σ self k_url = None ∨ attr σ self k_headers = None →
  ∃ e, fst (execute m self q v env σ) = Throw e
       ∧ exn_cls e = AttributeError
       ∧ wire (snd (execute m self q v env σ)) = wire σ
       ∧ stdout (snd (execute m self q v env σ)) = stdout σ.
Proof.
  intros Hattr. unfold attr in Hattr.
  destruct m; run_M;
    (destruct (truthy _ v); simpl; rewrite ?lookup_insert_eq; simpl;
       rewrite ?insert_insert_eq;
     (destruct (decide (fresh (dom (store σ)) = self)) as [<-|Hne];
      [ rewrite lookup_insert_eq; simpl; by eexists
      | rewrite !lookup_insert_ne by done;
        destruct (store σ !! self) as [[?|attrs]|] eqn:Hself; simpl;
          try (by eexists);
        destruct (attrs !! k_url) eqn:Hu; simpl; [|by eexists];
        destruct (attrs !! k_headers) eqn:Hh; [by destruct Hattr|];
        lookups; by eexists ])).
Qed.

Lemma request_without_attributes_witness :
  attr unfinished_state client k_url = Some endpoint
  ∧ attr unfinished_state client k_api_key = Some (PyStr [])
  ∧ attr unfinished_state client k_headers = None
  ∧ ∃ e, fst (execute Query client (lit "query { id }") PyNone (stub (Ret ok_response))
                unfinished_state) = Throw e
         ∧ exn_cls e = AttributeError
         ∧ wire (snd (execute Query client (lit "query { id }") PyNone
                        (stub (Ret ok_response)) unfinished_state))
           = wire unfinished_state
         ∧ stdout (snd (execute Query client (lit "query { id }") PyNone
                          (stub (Ret ok_response)) unfinished_state))
           = stdout unfinished_state.
Proof.
  split; [reflexivity|]. split; [reflexivity|]. split; [reflexivity|].
  apply (request_without_attributes Query (stub (Ret ok_response)) unfinished_state
           client (lit "query { id }") PyNone).
  right. reflexivity.
Defined.

(** X9: what a request on a client prints: at most two lines; at least
    one whenever the method returns; for every response it received, the
    status line first; and the status line alone when it returns a value
    other than [None]. *)
Theorem request_prints m env σ self u h q v :
  is_client σ self u h →
  ∃ out, stdout (snd (execute m self q v env σ)) = stdout σ ++ out
    ∧ (length out ≤ 2)%nat
    ∧ (∀ val, fst (execute m self q v env σ) = Ret val → out ≠ [])
    ∧ (∀ r, transport env (wire σ) (sent σ u h q v) = Ret r →
         head out = Some [PyStr (status_label m); PyInt (status_code r)])
    ∧ (∀ val, fst (execute m self q v env σ) = Ret val → val ≠ PyNone →
         length out = 1%nat).
Proof.
  intros Hclient.
  rewrite (execute_client m env σ self u h q v Hclient).
  destruct (transport env (wire σ) (sent σ u h q v)) as [r|e]; simpl.
  - destruct (status_code r =? 200)%Z; [destruct (json r) as [val|e]|];
      try destruct (is_RequestException e); simpl;
      eexists; (split; [reflexivity|]); simpl;
      (split; [lia|]); (split; [done|]);
      (split; [by intros r' [= <-]|]);
      first [ done | by intros val' [= <-] Hne ].
  - destruct (is_RequestException e); simpl;
      eexists; (split; [reflexivity|]); simpl;
      (split; [lia|]); (split; [done|]); (split; [done|]);
      first [ done | by intros val' [= <-] Hne ].
Qed.

Lemma request_prints_witness :
  ∃ out, stdout (snd (execute Query client (lit "query { id }") PyNone
                        (stub (Ret error_response)) client_state))
         = stdout client_state ++ out
    ∧ (length out ≤ 2)%nat
    ∧ head out = Some [PyStr (status_label Query); PyInt 500].
Proof.
  destruct (request_prints Query (stub (Ret error_response)) client_state client endpoint
              client_headers (lit "query { id }") PyNone client_state_is_client)
    as (out & Hout & Hlen & _ & Hhead & _).
  exists out. split; [exact Hout|]. split; [exact Hlen|].
  exact (Hhead error_response eq_refl).
Defined.

(** ** The reports of the script *)

Lemma bind_run {A B} (m : M A) (f : A → M B) (env : Env) (σ : State) :
  (m ≫= f) env σ
  = match m env σ with
    | (Ret a, σ') => f a env σ'
    | (Throw e, σ') => (Throw e, σ')
    end.
Proof. reflexivity. Qed.

Lemma quiet_ret {A} (a : A) : quiet (mret a : M A).
Proof. by intros env σ. Qed.

Lemma quiet_bind {A B} (m : M A) (f : A → M B) :
  quiet m → (∀ a, quiet (f a)) → quiet (m ≫= f).
Proof.
  intros Hm Hf env σ. rewrite bind_run.
  destruct (Hm env σ) as [Hs Hw].
  destruct (m env σ) as [[a|e] σ'] eqn:Hrun; simpl in *.
  - destruct (Hf a env σ') as [Hs' Hw']. split; congruence.
  - done.
Qed.

Lemma quiet_print (args : list pyval) : quiet (print args).
Proof. by intros env σ. Qed.

Lemma quiet_truth (v : pyval) : quiet (truth v).
Proof. by intros env σ. Qed.

Lemma quiet_contains (key : str) (v : pyval) : quiet (contains key v).
Proof. intros env σ. unfold contains. by repeat case_match. Qed.

Lemma quiet_subscript (v : pyval) (key : str) : quiet (subscript v key).
Proof. intros env σ. unfold subscript. by repeat case_match. Qed.

Lemma quiet_call_get (v : pyval) (key : str) : quiet (call_get v key).
Proof. intros env σ. unfold call_get. by repeat case_match. Qed.

Lemma quiet_iterate (v : pyval) : quiet (iterate v).
Proof. intros env σ. unfold iterate. by repeat case_match. Qed.

Lemma quiet_and_then (a : bool) (b : M bool) : quiet b → quiet (and_then a b).
Proof. intros Hb. destruct a; [exact Hb|apply quiet_ret]. Qed.

Lemma quiet_for_each (xs : list pyval) (body : pyval → M unit) :
  (∀ x, quiet (body x)) → quiet (for_each xs body).
Proof.
  intros Hbody. induction xs as [|x xs IH]; [apply quiet_ret|].
  simpl. apply quiet_bind; [apply Hbody|]. by intros _.
Qed.

Create HintDb quiet.
#[local] Hint Resolve quiet_ret quiet_print quiet_truth quiet_contains
  quiet_subscript quiet_call_get quiet_iterate : quiet.

(** Take a computation made of quiet operations apart. *)
Ltac quiet_steps :=
  repeat first
    [ apply quiet_bind; [|intros ?]
    | apply quiet_and_then
    | apply quiet_for_each; intros ?
    | solve [auto with quiet]
    | match goal with |- quiet (if ?b then _ else _) => destruct b end ].

Lemma report_projects_quiet (v : pyval) : quiet (report_projects v).
Proof. unfold report_projects. destruct v; quiet_steps. Qed.

Lemma report_contact_quiet (v : pyval) : quiet (report_contact v).
Proof. unfold report_contact. destruct v; quiet_steps. Qed.

(** Unfold a report down to the operations on the state. *)
Ltac run_script :=
  unfold report_projects, report_contact, contains, subscript, call_get, iterate,
    and_then, truth, print, mbind, M_bind, mret, M_ret;
  simpl.


Lemma report_projects_object (items : list (str * pyval)) (env : Env) (σ : State) :
  (fst (report_projects (PyDict items) env σ) = Ret ()
   ↔ assoc k_data items = None
     ∨ ∃ d, assoc k_data items = Some d ∧ is_dict (store σ) d = true)
  ∧ (∀ d, assoc k_data items = Some d → is_dict (store σ) d = false →
       (∀ l, d ≠ PyRef l) →
       ∃ e, fst (report_projects (PyDict items) env σ) = Throw e
            ∧ exn_cls e = AttributeError).
Proof.
  run_script.
  destruct (assoc k_data items) as [d|] eqn:Hdata; simpl.
  2: { split; [split; [by left|done]|done]. }
  destruct d as [| | | | | |ditems| |l]; simpl.
  7: { destruct (assoc k_project_matches ditems) as [v|] eqn:Hv; simpl;
         [destruct (truthy (store σ) v); simpl; rewrite ?Hv; simpl|];
         (split; [split; [intros _; right; by eexists|done]|by intros d [= <-]]). }
  8: { unfold is_dict.
       destruct (store σ !! l) as [[ditems|attrs]|] eqn:Hl; simpl.
       - destruct (ditems !! k_project_matches) as [v|] eqn:Hv; simpl;
           [destruct (truthy (store σ) v); simpl; rewrite ?Hl; simpl; rewrite ?Hv; simpl|];
           (split; [split; [intros _; right; eexists; split; [reflexivity|]; simpl; by rewrite Hl|done]
                   |intros d [= <-]; simpl; by rewrite Hl]).
       - destruct (attrs !! k_get); simpl;
           (split; [split; [done|intros [?|(d & [= <-] & Hd)]; [done|simpl in Hd; by rewrite Hl in Hd]]
                   |intros d [= <-] _ H; by destruct (H l)]).
       - split; [split; [done|intros [?|(d & [= <-] & Hd)]; [done|simpl in Hd; by rewrite Hl in Hd]]
                |intros d [= <-] _ H; by destruct (H l)]. }
  all: split; [split; [done|intros [?|(d & [= <-] & ?)]; done]|];
    intros d [= <-] _ _; by eexists.
Qed.









(** ** The script as a whole *)

Lemma construct_ret_ref url key env σ cl σ1 :
  HeroGraphQLClient url key env σ = (Ret cl, σ1) → ∃ self, cl = PyRef self.
Proof.
  intros Hmade. pose proof (construct_value url key env σ) as Hval.
  rewrite Hmade in Hval. simpl in Hval.
  destruct (fst (read key env σ)) as [[| | | |[|c token]| | | |]|]; try discriminate.
  injection Hval as ->. by eexists.
Qed.

(** The instance a construction returns has the three attributes
    [__init__] sets and no other, so none that hides a method. *)
Lemma construct_no_methods url key env σ self σ1 :
  HeroGraphQLClient url key env σ = (Ret (PyRef self), σ1) →
  ∃ attrs, store σ1 !! self = Some (OInstance attrs)
           ∧ attrs !! k_execute_query = None
           ∧ attrs !! k_execute_mutation = None.
Proof.
  run_M. lookups. rewrite read_run.
  destruct (files env key) as [lines|e]; simpl.
  - lookups. destruct (read_lines lines) as [|c token]; simpl; lookups;
      [discriminate|].
    intros [= <- <-]. simpl. lookups.
    eexists. split; [reflexivity|]. split; by map_lookups.
  - destruct (is_FileNotFoundError e); simpl; lookups; [discriminate|].
    destruct (is_Exception e); simpl; lookups; discriminate.
Qed.

Lemma call_method_client {A} (name : str) (method : loc → M A) env σ self attrs :
  store σ !! self = Some (OInstance attrs) →
  attrs !! name = None →
  call_method (PyRef self) name method env σ = method self env σ.
Proof. intros Hself Hname. unfold call_method. by rewrite Hself, Hname. Qed.

Lemma is_client_mono σ σ' self u h :
  store σ ⊆ store σ' → is_client σ self u h → is_client σ' self u h.
Proof.
  intros Hsub (attrs & Hself & Hu & Hh). exists attrs.
  split; [by eapply lookup_weaken|done].
Qed.

Lemma sent_plain σ u h q : body_of (sent σ u h q PyNone) = Some {[ k_query := PyStr q ]}.
Proof. unfold body_of, sent. simpl. by rewrite lookup_insert_eq. Qed.

(** A method of the class called on a client without variables: the
    call [sent] goes out, and the store only grows. *)
Lemma method_call_run m name env σ self u h attrs q :
  store σ !! self = Some (OInstance attrs) →
  attrs !! name = None →
  is_client σ self u h →
  ∃ r σ', call_method (PyRef self) name (λ s, execute m s q PyNone) env σ = (r, σ')
    ∧ wire σ' = wire σ ++ [sent σ u h q PyNone]
    ∧ store σ ⊆ store σ'.
Proof.
  intros Hself Hname Hclient.
  rewrite (call_method_client name _ env σ self attrs Hself Hname).
  rewrite (execute_client m env σ self u h q PyNone Hclient).
  destruct (answer_after m σ (sent σ u h q PyNone)
              (transport env (wire σ) (sent σ u h q PyNone))) as [out Hout].
  destruct (answer m σ _ _) as [r σ'] eqn:Hans. simpl in Hout. subst σ'.
  exists r, (after σ (sent σ u h q PyNone) out).
  split; [done|]. split; [done|]. apply sent_heap_grows.
Qed.

Lemma print_run {B} (args : list pyval) (f : () → M B) (env : Env) (σ : State) :
  (print args ≫= f) env σ
  = f () env {| store := store σ; stdout := stdout σ ++ [args]; wire := wire σ |}.
Proof. reflexivity. Qed.

(** X14: whatever the file system and the transport do, the script calls
    the transport at most twice: first with the query on the projects,
    then with the mutation that creates the contact, each time posting to
    the url of the script a body that holds the document and no
    [variables]; the mutation is sent only after the query, and a script
    that ends normally has sent both. *)
Theorem script_requests (api_key_path : str) (env : Env) (σ : State) :
  ∃ made, wire (snd (script api_key_path env σ)) = wire σ ++ made
    ∧ (made = []
       ∨ (∃ c1, made = [c1] ∧ script_request projects_query c1)
       ∨ (∃ c1 c2, made = [c1; c2]
                   ∧ script_request projects_query c1
                   ∧ script_request create_contact_mutation c2))
    ∧ (fst (script api_key_path env σ) = Ret () → length made = 2%nat).
Proof.
  unfold script. rewrite bind_run.
  pose proof (construct_frame (PyStr api_url) api_key_path env σ) as (Hw0 & _ & _).
  destruct (HeroGraphQLClient (PyStr api_url) api_key_path env σ)
    as [[cl|e] σ1] eqn:Hmade; simpl in Hw0.
  2: { exists []. rewrite app_nil_r. simpl.
       split; [done|]. split; [by left|discriminate]. }
  destruct (construct_ret_ref _ _ _ _ _ _ Hmade) as [self ->].
  destruct (construct_state _ _ _ _ _ _ Hmade) as (token & _ & _ & Hc & _ & _ & _).
  destruct (construct_no_methods _ _ _ _ _ _ Hmade) as (attrs & Hself & Hq & Hm).
  destruct (constructed_is_client _ _ _ _ Hc) as (h & Hclient & _).
  destruct (method_call_run Query k_execute_query env σ1 self _ _ attrs projects_query
              Hself Hq Hclient) as (r1 & σ2 & Hrun1 & Hw1 & Hs1).
  unfold execute in Hrun1. rewrite bind_run, Hrun1.
  set (c1 := sent σ1 (PyStr api_url) (PyRef h) projects_query PyNone) in *.
  assert (script_request projects_query c1) as Hc1 by (split; [done|apply sent_plain]).
  destruct r1 as [v1|e1].
  2: { exists [c1]. simpl. rewrite Hw1, Hw0.
       split; [done|]. split; [right; left; by eexists|discriminate]. }
  rewrite print_run, bind_run.
  match goal with |- context [report_projects v1 env ?s] => set (σ2' := s) end.
  pose proof (report_projects_quiet v1 env σ2') as [Hs3 Hw3].
  destruct (report_projects v1 env σ2') as [[[]|e] σ3] eqn:Hrep; simpl in Hs3, Hw3.
  2: { exists [c1]. simpl. rewrite Hw3. simpl. rewrite Hw1, Hw0.
       split; [done|]. split; [right; left; by eexists|discriminate]. }
  assert (store σ1 ⊆ store σ3) as Hsub by (by rewrite Hs3).
  destruct (method_call_run Mutation k_execute_mutation env σ3 self (PyStr api_url)
              (PyRef h) attrs create_contact_mutation
              (lookup_weaken _ _ _ _ Hself Hsub) Hm
              (is_client_mono _ _ _ _ _ Hsub Hclient)) as (r2 & σ4 & Hrun2 & Hw4 & Hs4).
  unfold execute in Hrun2. rewrite bind_run, Hrun2.
  set (c2 := sent σ3 (PyStr api_url) (PyRef h) create_contact_mutation PyNone) in *.
  assert (script_request create_contact_mutation c2) as Hc2
    by (split; [done|apply sent_plain]).
  assert (wire σ4 = wire σ ++ [c1; c2]) as Hwire.
  { rewrite Hw4, Hw3. simpl. rewrite Hw1, Hw0. by rewrite <- app_assoc. }
  exists [c1; c2].
  split; [|split; [right; right; by exists c1, c2|done]].
  destruct r2 as [v2|e2]; [|done].
  rewrite print_run.
  match goal with |- context [report_contact v2 env ?s] => set (σ4' := s) end.
  pose proof (report_contact_quiet v2 env σ4') as [_ Hw5].
  by rewrite Hw5.
Qed.

Lemma script_requests_witness :
  fst (script key_path (stub (Ret error_response)) empty_state) = Ret ()
  ∧ ∃ made,
      wire (snd (script key_path (stub (Ret error_response)) empty_state))
      = wire empty_state ++ made
      ∧ (made = []
         ∨ (∃ c1, made = [c1] ∧ script_request projects_query c1)
         ∨ (∃ c1 c2, made = [c1; c2]
                     ∧ script_request projects_query c1
                     ∧ script_request create_contact_mutation c2))
      ∧ (fst (script key_path (stub (Ret error_response)) empty_state) = Ret () →
         length made = 2%nat).
Proof.
  split; [vm_compute; reflexivity|].
  apply (script_requests key_path (stub (Ret error_response)) empty_state).
Defined.

(** X15: the script as it is in the source, with the empty path: when
    the empty path cannot be opened, or gives a file without a key line,
    the script stops with the invalid-credential error; it has printed
    what [read] prints and has called the transport not once. *)
Theorem main_without_credential (env : Env) (σ : State) :
  (∃ e, files env (lit "") = Throw e ∧ is_Exception e = true)
  ∨ (∃ lines, files env (lit "") = Ret lines
              ∧ Forall (λ line, dropped line = true) lines) →
  fst (main env σ) = Throw invalid_credential
  ∧ wire (snd (main env σ)) = wire σ
  ∧ stdout (snd (main env σ)) = stdout (snd (read (lit "") env σ)).
Proof.
  intros Hno. apply (construct_fails_iff env σ (PyStr api_url)) in Hno.
  pose proof (construct_frame (PyStr api_url) (lit "") env σ) as (Hw & Hout & _).
  unfold main, script. rewrite bind_run.
  destruct (HeroGraphQLClient (PyStr api_url) (lit "") env σ) as [r σ1].
  simpl in *. by subst r.
Qed.

Lemma main_without_credential_witness :
  fst (main (stub (Ret ok_response)) empty_state) = Throw invalid_credential
  ∧ wire (snd (main (stub (Ret ok_response)) empty_state)) = wire empty_state
  ∧ stdout (snd (main (stub (Ret ok_response)) empty_state))
    = stdout (snd (read (lit "") (stub (Ret ok_response)) empty_state)).
Proof.
  apply (main_without_credential (stub (Ret ok_response)) empty_state).
  left. exists (message FileNotFoundError "No such file or directory").
  split; reflexivity.
Defined.




Lemma method_call_ok m name env σ self u h attrs q r v :
  store σ !! self = Some (OInstance attrs) →
  attrs !! name = None →
  is_client σ self u h →
  transport env (wire σ) (sent σ u h q PyNone) = Ret r →
  status_code r = 200%Z →
  json r = Ret v →
  call_method (PyRef self) name (λ s, execute m s q PyNone) env σ
  = (Ret v, after σ (sent σ u h q PyNone) [[PyStr (status_label m); PyInt (status_code r)]]).
Proof.
  intros Hself Hname Hclient Hr Hs Hj.
  rewrite (call_method_client name _ env σ self attrs Hself Hname).
  rewrite (execute_client m env σ self u h q PyNone Hclient), Hr. simpl.
  apply Z.eqb_eq in Hs. by rewrite Hs, Hj.
Qed.

(** X17: the script with a path that gives a key: when the transport
    answers the query with status 200 and the object GraphQL servers send
    for a failed request, with [errors] and a null [data], the script
    stops with an [AttributeError] in the report on the projects; the
    query was sent and the mutation never is. *)
Theorem script_stops_on_null_data (api_key_path : str) (lines : list str)
    (r : Response) (items : list (str * pyval)) (env : Env) (σ : State) :
  files env api_key_path = Ret lines →
  read_lines lines ≠ [] →
  (∀ hist c, transport env hist c = Ret r) →
  status_code r = 200%Z →
  json r = Ret (PyDict items) →
  assoc k_data items = Some PyNone →
  ∃ e, fst (script api_key_path env σ) = Throw e
       ∧ exn_cls e = AttributeError
       ∧ ∃ c1, wire (snd (script api_key_path env σ)) = wire σ ++ [c1]
               ∧ script_request projects_query c1.
Proof.
  intros Hfile Hkey Hr Hs Hj Hdata.
  pose proof (construct_value (PyStr api_url) api_key_path env σ) as Hval.
  rewrite read_run, Hfile in Hval. simpl in Hval.
  destruct (read_lines lines) as [|c token] eqn:Htok; [done|].
  destruct (HeroGraphQLClient (PyStr api_url) api_key_path env σ)
    as [r0 σ1] eqn:Hmade. simpl in Hval. subst r0.
  set (self := fresh (dom (store σ))) in *.
  destruct (construct_state _ _ _ _ _ _ Hmade) as (tok & _ & _ & Hc & _ & Hw0 & _).
  destruct (construct_no_methods _ _ _ _ _ _ Hmade) as (attrs & Hself & Hq & _).
  destruct (constructed_is_client _ _ _ _ Hc) as (h & Hclient & _).
  pose proof (method_call_ok Query k_execute_query env σ1 self _ _ attrs projects_query
                r (PyDict items) Hself Hq Hclient (Hr _ _) Hs Hj) as Hrun1.
  unfold execute in Hrun1.
  set (c1 := sent σ1 (PyStr api_url) (PyRef h) projects_query PyNone) in *.
  unfold script. rewrite bind_run, Hmade, bind_run, Hrun1, print_run, bind_run.
  match goal with |- context [report_projects _ env ?s] => set (σ2 := s) end.
  destruct (proj2 (report_projects_object items env σ2) PyNone Hdata eq_refl)
    as (e & He & Hcls); [discriminate|].
  pose proof (report_projects_quiet (PyDict items) env σ2) as [_ Hw2].
  destruct (report_projects (PyDict items) env σ2) as [r2 σ3].
  simpl in He, Hw2. subst r2.
  exists e. split; [done|]. split; [done|].
  exists c1. split; [|split; [done|apply sent_plain]].
  simpl. by rewrite Hw2, <- Hw0.
Qed.

Lemma script_stops_on_null_data_witness :
  ∃ e, fst (script key_path
              (stub (Ret {| status_code := 200; text := [];
                            json := Ret (PyDict (graphql_failure [])) |}))
              empty_state) = Throw e
       ∧ exn_cls e = AttributeError.
Proof.
  destruct (script_stops_on_null_data key_path pem_file
              {| status_code := 200; text := []; json := Ret (PyDict (graphql_failure [])) |}
              (graphql_failure [])
              (stub (Ret {| status_code := 200; text := [];
                            json := Ret (PyDict (graphql_failure [])) |}))
              empty_state eq_refl) as (e & He & Hcls & _);
    try reflexivity; try discriminate.
  exists e. split; [exact He|exact Hcls].
Defined.
